(** * Solar irradiation calculator: the logic of [src/src/App.tsx]

    A shallow embedding of the component [App]: its React state, the three
    event handlers [handlePositionChange], [handleLatLngInput] and
    [calculateSolar], and the condition and figure of the tilt suggestion in
    the rendered result panel.

    JavaScript numbers are IEEE 754 binary64 values, so the type [number] is
    Rocq's primitive [float]; the built-ins the component calls
    ([Math.abs], [Math.round], [isNaN], [Number.prototype.toFixed],
    [Number.prototype.toString], [parseFloat]) are written out over the exact
    value of a float, following ECMA-262. *)

From Stdlib Require Import ZArith List String Ascii Bool Lia.
From Stdlib Require Import Floats DecimalString.
From Stdlib Require Import DecimalPos DecimalN.
Import ListNotations.

Set Warnings "-inexact-float".

Local Open Scope string_scope.
Local Open Scope Z_scope.

(** ** JavaScript numbers and the built-ins used by the component *)

Module JS.

Definition number := float.

(** [Math.abs] and [isNaN] are the primitive operations. *)
Definition Math_abs (x : number) : number := PrimFloat.abs x.
Definition isNaN (x : number) : bool := PrimFloat.is_nan x.

(** The JavaScript comparison [a >= b] is IEEE's [b <= a]: false as soon as
    one side is NaN. *)
Definition ge (a b : number) : bool := (b <=? a)%float.
Definition le (a b : number) : bool := (a <=? b)%float.
Definition lt (a b : number) : bool := (a <? b)%float.
Definition gt (a b : number) : bool := (b <? a)%float.

(** Strict equality [===] on two numbers; [!==] is its negation. *)
Definition strict_eq (a b : number) : bool := (a =? b)%float.
Definition strict_neq (a b : number) : bool := negb (strict_eq a b).

(** The float nearest to an integer (ties to even), and to a positive
    fraction [p / d]: the rounding every conversion to a Number uses. *)
Definition of_Z (z : Z) : number :=
  SF2Prim (binary_normalize prec emax z 0 false).

Definition SF_of_ratio (neg : bool) (p d : positive) : spec_float :=
  let '(mz, ez, lz) := SFdiv_core_binary prec emax (Zpos p) 0 (Zpos d) 0 in
  binary_round_aux prec emax neg mz ez lz.

(** [m * 10^e] as a float. *)
Definition SF_of_decimal (neg : bool) (m : Z) (e : Z) : spec_float :=
  match m with
  | Zpos p =>
      if 0 <=? e then SF_of_ratio neg (p * Z.to_pos (10 ^ e)) 1
      else SF_of_ratio neg p (Z.to_pos (10 ^ (- e)))
  | _ => S754_zero neg
  end.

(** *** Math.round

    The integral Number closest to [x]; of two equally close ones, the one
    closer to +Infinity. A value in [-0.5, -0] gives [-0]. *)
Definition Math_round (x : number) : number :=
  match Prim2SF x with
  | S754_finite s m e =>
      if 0 <=? e then x
      else
        let k := 2 ^ (- e) in
        let v := if s then Zneg m else Zpos m in
        let n := (2 * v + k) / (2 * k) in
        if n =? 0 then (if s then neg_zero else zero) else of_Z n
  | _ => x
  end.

(** *** Decimal digits *)

Definition digit_char (d : Z) : ascii :=
  ascii_of_nat (48 + Z.to_nat d).

(** The last [k] decimal digits of [n], most significant first. *)
Fixpoint digits_fixed (k : nat) (n : Z) : string :=
  match k with
  | O => EmptyString
  | S k' => digits_fixed k' (n / 10) ++ String (digit_char (n mod 10)) EmptyString
  end.

(** The decimal representation of a natural number, ["0"] for zero. *)
Definition string_of_nonneg (n : Z) : string :=
  NilZero.string_of_uint (N.to_uint (Z.to_N n)).

(** The decimal representation of an integer. *)
Definition string_of_Z (z : Z) : string :=
  (if z <? 0 then "-" else "") ++ string_of_nonneg (Z.abs z).

Fixpoint zeros (k : nat) : string :=
  match k with
  | O => EmptyString
  | S k' => String "0" (zeros k')
  end.

(** *** The exact value of a finite float

    A finite nonzero float [S754_finite s m e] is [(-1)^s * m * 2^e]; its
    magnitude is kept as the fraction [P / D] of two positive integers. *)
Definition exact_ratio (m : positive) (e : Z) : Z * Z :=
  if 0 <=? e then (Zpos m * 2 ^ e, 1) else (Zpos m, 2 ^ (- e)).

(** [10^n <= P / D]. *)
Definition ge_pow10 (P D n : Z) : bool :=
  if 0 <=? n then D * 10 ^ n <=? P else D <=? P * 10 ^ (- n).

Fixpoint exp_up (fuel : nat) (P D n : Z) : Z :=
  match fuel with
  | O => n
  | S f => if ge_pow10 P D n then exp_up f P D (n + 1) else n
  end.

Fixpoint exp_down (fuel : nat) (P D n : Z) : Z :=
  match fuel with
  | O => n
  | S f => if ge_pow10 P D (n - 1) then n else exp_down f P D (n - 1)
  end.

(** The integer [n] with [10^(n-1) <= P / D < 10^n]: an estimate from the
    binary lengths, then corrected in both directions. *)
Definition dec_exponent (P D : Z) : Z :=
  let est := ((Z.log2 P - Z.log2 D) * 30103) / 100000 in
  exp_down 700 P D (exp_up 700 P D est).

Definition SF_eqb (a b : spec_float) : bool :=
  match a, b with
  | S754_zero s1, S754_zero s2 => Bool.eqb s1 s2
  | S754_infinity s1, S754_infinity s2 => Bool.eqb s1 s2
  | S754_nan, S754_nan => true
  | S754_finite s1 m1 e1, S754_finite s2 m2 e2 =>
      Bool.eqb s1 s2 && Pos.eqb m1 m2 && Z.eqb e1 e2
  | _, _ => false
  end.

(** *** Number::toString, step 5

    The integers [s], [k], [n] with [10^(k-1) <= s < 10^k] such that
    [s * 10^(n-k)] converts back to [x], with [k] as small as possible and,
    for that [k], [s * 10^(n-k)] as close to [x] as possible (the even [s] on
    a tie). With [k] digits the only candidates are the two multiples of
    [10^(n0-k)] around [x]. *)
Fixpoint shortest_digits (fuel : nat) (k : Z) (x : spec_float) (P D n0 : Z)
  : Z * Z * Z :=
  match fuel with
  | O => (0, k, n0)
  | S f =>
      let q := n0 - k in
      let '(num, den) :=
        if 0 <=? q then (P, D * 10 ^ q) else (P * 10 ^ (- q), D) in
      let lo := num / den in
      let hi := lo + 1 in
      let ok c := SF_eqb (SF_of_decimal false c q) x in
      let pick :=
        match ok lo, ok hi with
        | true, true =>
            match 2 * num ?= (2 * lo + 1) * den with
            | Lt => Some lo
            | Gt => Some hi
            | Eq => Some (if Z.even lo then lo else hi)
            end
        | true, false => Some lo
        | false, true => Some hi
        | false, false => None
        end in
      match pick with
      | Some s => if s =? 10 ^ k then (10 ^ (k - 1), k, n0 + 1) else (s, k, n0)
      | None => shortest_digits f (k + 1) x P D n0
      end
  end.

Definition sign_string (s : bool) : string := if s then "-" else "".

(** *** Number::toString (radix 10) *)
Definition Number_toString (x : number) : string :=
  match Prim2SF x with
  | S754_nan => "NaN"
  | S754_zero _ => "0"
  | S754_infinity s => sign_string s ++ "Infinity"
  | S754_finite s m e =>
      let '(P, D) := exact_ratio m e in
      let '(sd, k, n) :=
        shortest_digits 17 1 (S754_finite false m e) P D (dec_exponent P D) in
      let ds := string_of_nonneg sd in
      let body :=
        if (-6 <? n) && (n <=? 21) then
          if k <=? n then ds ++ zeros (Z.to_nat (n - k))
          else if 0 <? n then
            substring 0 (Z.to_nat n) ds ++ "." ++
            substring (Z.to_nat n) (Z.to_nat (k - n)) ds
          else "0." ++ zeros (Z.to_nat (- n)) ++ ds
        else
          let ex := n - 1 in
          let exs := (if ex <? 0 then "-" else "+") ++ string_of_nonneg (Z.abs ex) in
          if k =? 1 then ds ++ "e" ++ exs
          else substring 0 1 ds ++ "." ++ substring 1 (Z.to_nat (k - 1)) ds
               ++ "e" ++ exs in
      sign_string s ++ body
  end.

(** *** Number.prototype.toFixed

    [fixed_digits f n] writes the integer [n] with its last [f] digits after
    the decimal point (none and no point when [f] is 0). *)
Definition fixed_digits (f : nat) (n : Z) : string :=
  match f with
  | O => string_of_nonneg n
  | S _ =>
      string_of_nonneg (n / 10 ^ Z.of_nat f) ++ "." ++
      digits_fixed f (n mod 10 ^ Z.of_nat f)
  end.

(** The integer [n] for which [n / 10^f] is closest to [P / D], the larger
    one of two. *)
Definition scaled_round (f : nat) (P D : Z) : Z :=
  (2 * P * 10 ^ Z.of_nat f + D) / (2 * D).

(** [x.toFixed(f)] for [0 <= f <= 100] (the component passes 0 and 5; other
    arguments raise a RangeError and are not modelled). A value that is not
    finite, or of magnitude [10^21] and more, is written by
    [Number_toString]. *)
Definition toFixed (x : number) (f : nat) : string :=
  match Prim2SF x with
  | S754_finite s m e =>
      let '(P, D) := exact_ratio m e in
      if 10 ^ 21 * D <=? P then Number_toString x
      else sign_string s ++ fixed_digits f (scaled_round f P D)
  | S754_zero _ => fixed_digits f 0
  | _ => Number_toString x
  end.

(** *** parseFloat

    Leading white space is skipped, then the longest prefix that is a
    StrDecimalLiteral is converted; NaN when there is none. Strings are
    sequences of code units below 256. *)
Definition is_whitespace (c : ascii) : bool :=
  let n := nat_of_ascii c in
  ((9 <=? n) && (n <=? 13) || (n =? 32) || (n =? 160))%nat.

Fixpoint trim_start (s : string) : string :=
  match s with
  | String c r => if is_whitespace c then trim_start r else s
  | EmptyString => s
  end.

Definition digit_value (c : ascii) : option Z :=
  let n := nat_of_ascii c in
  if ((48 <=? n) && (n <=? 57))%nat then Some (Z.of_nat n - 48) else None.

(** Reads DecimalDigits: the value accumulated onto [acc], the number of
    digits read added to [cnt], and the rest of the string. *)
Fixpoint read_digits (s : string) (acc cnt : Z) : Z * Z * string :=
  match s with
  | String c r =>
      match digit_value c with
      | Some d => read_digits r (10 * acc + d) (cnt + 1)
      | None => (acc, cnt, s)
      end
  | EmptyString => (acc, cnt, s)
  end.

Definition read_sign (s : string) : bool * string :=
  match s with
  | String "-" r => (true, r)
  | String "+" r => (false, r)
  | _ => (false, s)
  end.

(** ExponentPart: [e] or [E], an optional sign and at least one digit;
    0 when the rest does not start with one. *)
Definition read_exponent (s : string) : Z :=
  match s with
  | String c r =>
      if (Ascii.eqb c "e" || Ascii.eqb c "E")%bool then
        let '(eneg, r1) := read_sign r in
        let '(ev, ec, _) := read_digits r1 0 0 in
        if ec =? 0 then 0 else if eneg then - ev else ev
      else 0
  | EmptyString => 0
  end.

Definition parseFloat (input : string) : number :=
  let '(neg, s1) := read_sign (trim_start input) in
  if prefix "Infinity" s1 then (if neg then neg_infinity else infinity)
  else
    let '(ip, ic, s2) := read_digits s1 0 0 in
    let '(mant, fc, s3) :=
      match s2 with
      | String "." r => read_digits r ip 0
      | _ => (ip, 0, s2)
      end in
    if (ic =? 0) && (fc =? 0) then nan
    else SF2Prim (SF_of_decimal neg mant (read_exponent s3 - fc)).

End JS.

(** Comparison and arithmetic of the source, written as in the source. *)
Declare Scope js_scope.
Delimit Scope js_scope with js.
Notation "a >= b" := (JS.ge a b) : js_scope.
Notation "a <= b" := (JS.le a b) : js_scope.
Notation "a < b" := (JS.lt a b) : js_scope.
Notation "a > b" := (JS.gt a b) : js_scope.
Notation "a !== b" := (JS.strict_neq a b) (at level 70, no associativity) : js_scope.
Notation "a === b" := (JS.strict_eq a b) (at level 70, no associativity) : js_scope.

(** ** URLSearchParams

    [new URLSearchParams({...})] keeps the pairs in the order of the object
    literal; inside the template string it is serialised as
    application/x-www-form-urlencoded. *)

Module URLSearchParams.

Definition t := list (string * string).

Definition hex_digit (n : nat) : ascii :=
  ascii_of_nat (if (n <? 10)%nat then 48 + n else 55 + n).

Definition percent_byte (n : nat) : string :=
  String "%" (String (hex_digit (n / 16)) (String (hex_digit (n mod 16)) EmptyString)).

(** A byte that the serialiser leaves as it is: ASCII letters and digits
    and [* - . _]. *)
Definition unreserved (n : nat) : bool :=
  ((48 <=? n) && (n <=? 57) || (65 <=? n) && (n <=? 90) ||
   (97 <=? n) && (n <=? 122) ||
   (n =? 42) || (n =? 45) || (n =? 46) || (n =? 95))%nat.

(** One code unit (below 256): a space becomes [+], an unreserved byte is
    kept, any other byte of the UTF-8 encoding is percent-encoded. *)
Definition encode_unit (c : ascii) : string :=
  let n := nat_of_ascii c in
  if (n =? 32)%nat then "+"
  else if unreserved n then String c EmptyString
  else if (n <? 128)%nat then percent_byte n
  else percent_byte (192 + n / 64) ++ percent_byte (128 + n mod 64).

Fixpoint encode (s : string) : string :=
  match s with
  | EmptyString => EmptyString
  | String c r => encode_unit c ++ encode r
  end.

Fixpoint toString (ps : t) : string :=
  match ps with
  | [] => ""
  | [(k, v)] => encode k ++ "=" ++ encode v
  | (k, v) :: rest => encode k ++ "=" ++ encode v ++ "&" ++ toString rest
  end.

End URLSearchParams.

(** ** The component [App] *)

Module App.

Import JS.
Local Open Scope float_scope.
Local Open Scope js_scope.

(** *** Data *)

(** [interface SolarData]. *)
Record SolarData := {
  yearlyIrradiation : number;
  monthlyData : list number;
  optimalTilt : number;
  optimalAzimuth : number;
  loss : number
}.

(** The nine [useState] cells of [App]. *)
Record AppState := {
  position : option (number * number);
  lat : string;
  lng : string;
  tilt : number;
  azimuth : number;
  shading : number;
  loading : bool;
  error : string;
  solarData : option SolarData
}.

(** The initial values given to [useState]. *)
Definition initial : AppState := {|
  position := None; lat := ""; lng := "";
  tilt := 35; azimuth := 180; shading := 0;
  loading := false; error := ""; solarData := None
|}.

(** What a handler can throw or an awaited promise can reject with. *)
Inductive exn :=
| Error (message : string)
| Rejection (reason : string).

(** The body of the PVGIS answer as the component reads it:
    [data.outputs.monthly.fixed] (objects with a field [E_m]) and
    [data.outputs.totals.fixed.E_y]. *)
Record MonthlyEntry := { E_m : number }.

Record PVcalc := {
  outputs_monthly_fixed : list MonthlyEntry;
  outputs_totals_fixed_E_y : number
}.

(** The [Response] that [fetch] resolves with: its [ok] flag and what
    [response.json()] settles to. The bodies modelled are those of the
    shape the component's annotations assume ([E_m] and [E_y] numbers); a
    body that is not JSON, or on which the property accesses of the [try]
    block throw, ends in the same [catch] and is a rejection here. *)
Record Response := {
  ok : bool;
  json : exn + PVcalc
}.

(** How the one network call of a calculation ends: [fetch] rejects, or it
    resolves with a response. *)
Definition fetch_outcome : Type := exn + Response.

(** *** Effects

    The calls a handler makes, in program order: the state setters, the
    network request and the console. *)
Inductive effect :=
| setPosition (pos : number * number)
| setLat (v : string)
| setLng (v : string)
| setTilt (v : number)
| setAzimuth (v : number)
| setShading (v : number)
| setLoading (v : bool)
| setError (v : string)
| setSolarData (v : SolarData)
| fetch_call (url : string)
| console_warn (msg : string)
| console_error (err : exn).

(** A computation records its effects and either throws or returns. *)
Definition M (A : Type) : Type := list effect * (exn + A).

Definition ret {A} (a : A) : M A := ([], inr a).

Definition bind {A B} (m : M A) (f : A -> M B) : M B :=
  match m with
  | (t, inl e) => (t, inl e)
  | (t, inr a) => let '(t', r) := f a in ((t ++ t')%list, r)
  end.

Definition emit (e : effect) : M unit := ([e], inr tt).

Definition throw {A} (e : exn) : M A := ([], inl e).

Definition when (b : bool) (m : M unit) : M unit :=
  if b then m else ret tt.

Definition try_catch {A} (body : M A) (handler : exn -> M A) : M A :=
  match body with
  | (t, inl e) => let '(t', r) := handler e in ((t ++ t')%list, r)
  | (t, inr a) => (t, inr a)
  end.

Definition finally {A} (body : M A) (fin : M unit) : M A :=
  let '(t, r) := body in
  let '(t', r') := fin in
  ((t ++ t')%list, match r' with inl e => inl e | inr _ => r end).

Notation "x <- m ;; k" := (bind m (fun x => k))
  (at level 61, m at next level, right associativity).
Notation "m ;; k" := (bind m (fun _ => k))
  (at level 61, right associativity).

(** [await fetch(url)] and [await response.json()]. *)
Definition fetch (o : fetch_outcome) (url : string) : M Response :=
  emit (fetch_call url) ;;
  match o with
  | inl e => throw e
  | inr r => ret r
  end.

Definition await_json (r : Response) : M PVcalc :=
  match json r with
  | inl e => throw e
  | inr d => ret d
  end.

(** *** State transitions *)

Definition apply_effect (st : AppState) (e : effect) : AppState :=
  match e with
  | setPosition v =>
      {| position := Some v; lat := lat st; lng := lng st; tilt := tilt st;
         azimuth := azimuth st; shading := shading st; loading := loading st;
         error := error st; solarData := solarData st |}
  | setLat v =>
      {| position := position st; lat := v; lng := lng st; tilt := tilt st;
         azimuth := azimuth st; shading := shading st; loading := loading st;
         error := error st; solarData := solarData st |}
  | setLng v =>
      {| position := position st; lat := lat st; lng := v; tilt := tilt st;
         azimuth := azimuth st; shading := shading st; loading := loading st;
         error := error st; solarData := solarData st |}
  | setTilt v =>
      {| position := position st; lat := lat st; lng := lng st; tilt := v;
         azimuth := azimuth st; shading := shading st; loading := loading st;
         error := error st; solarData := solarData st |}
  | setAzimuth v =>
      {| position := position st; lat := lat st; lng := lng st; tilt := tilt st;
         azimuth := v; shading := shading st; loading := loading st;
         error := error st; solarData := solarData st |}
  | setShading v =>
      {| position := position st; lat := lat st; lng := lng st; tilt := tilt st;
         azimuth := azimuth st; shading := v; loading := loading st;
         error := error st; solarData := solarData st |}
  | setLoading v =>
      {| position := position st; lat := lat st; lng := lng st; tilt := tilt st;
         azimuth := azimuth st; shading := shading st; loading := v;
         error := error st; solarData := solarData st |}
  | setError v =>
      {| position := position st; lat := lat st; lng := lng st; tilt := tilt st;
         azimuth := azimuth st; shading := shading st; loading := loading st;
         error := v; solarData := solarData st |}
  | setSolarData v =>
      {| position := position st; lat := lat st; lng := lng st; tilt := tilt st;
         azimuth := azimuth st; shading := shading st; loading := loading st;
         error := error st; solarData := Some v |}
  | fetch_call _ | console_warn _ | console_error _ => st
  end.

Definition run (st : AppState) (es : list effect) : AppState :=
  fold_left apply_effect es st.

(** *** Handlers *)

(** [handlePositionChange], the [setPosition] prop of [LocationMarker]. *)
Definition handlePositionChange (pos : number * number) : list effect :=
  [ setPosition pos;
    setLat (toFixed (fst pos) 5);
    setLng (toFixed (snd pos) 5) ].

(** [handleLatLngInput], the [onBlur] of both text inputs. *)
Definition handleLatLngInput (st : AppState) : list effect :=
  let latNum := parseFloat (lat st) in
  let lngNum := parseFloat (lng st) in
  if negb (isNaN latNum) && negb (isNaN lngNum) &&
     (latNum >= -90) && (latNum <= 90) && (lngNum >= -180) && (lngNum <= 180)
  then [ setPosition (latNum, lngNum) ]
  else [].

Definition no_location_message : string :=
  "Bitte waehlen Sie einen Standort auf der Karte.".

Definition fetch_failed_message : string :=
  "Fehler beim Abrufen der Solardaten. Bitte versuchen Sie es erneut.".

Definition plausibility_warning (yearlyIrradiation : number) : string :=
  "Warnung: Berechneter Wert (" ++ toFixed yearlyIrradiation 0 ++
  " kWh/m2/Jahr) liegt ausserhalb des erwarteten Bereichs (800-2500).".

Definition seasonal_notice : string := "Saisonale Verteilung unerwartet".

Definition api_base : string := "https://re.jrc.ec.europa.eu/api/v5_2/PVcalc?".

(** The object given to [new URLSearchParams]. *)
Definition request_params (pos : number * number) (st : AppState)
  : URLSearchParams.t :=
  [ ("lat", Number_toString (fst pos));
    ("lon", Number_toString (snd pos));
    ("peakpower", "1");
    ("loss", Number_toString (shading st));
    ("angle", Number_toString (tilt st));
    ("aspect", Number_toString (azimuth st - 180));
    ("outputformat", "json");
    ("pvtechchoice", "crystSi") ].

(** [monthlyData[i]] where only [<=] reads it: an index past the end gives
    [undefined], which the comparison converts to NaN. *)
Definition month (monthlyData : list number) (i : nat) : number :=
  nth i monthlyData nan.

(** The [try] block of [calculateSolar]. *)
Definition calculateSolar_try (pos : number * number) (st : AppState)
    (o : fetch_outcome) : M unit :=
  let params := request_params pos st in
  let apiUrl := api_base ++ URLSearchParams.toString params in
  response <- fetch o apiUrl ;;
  when (negb (ok response)) (throw (Error "PVGIS API Fehler")) ;;
  data <- await_json response ;;
  let monthlyData := map E_m (outputs_monthly_fixed data) in
  let yearlyIrradiation := outputs_totals_fixed_E_y data in
  when ((yearlyIrradiation < 800) || (yearlyIrradiation > 2500))
       (emit (setError (plausibility_warning yearlyIrradiation))) ;;
  let isNorthernHemisphere := fst pos > 0 in
  let summerMonth :=
    if isNorthernHemisphere then month monthlyData 5 else month monthlyData 11 in
  let winterMonth :=
    if isNorthernHemisphere then month monthlyData 11 else month monthlyData 5 in
  when (summerMonth <= winterMonth) (emit (console_warn seasonal_notice)) ;;
  emit (setSolarData {|
    yearlyIrradiation := yearlyIrradiation;
    monthlyData := monthlyData;
    optimalTilt := Math_abs (fst pos);
    optimalAzimuth := if fst pos > 0 then 180 else 0;
    loss := shading st
  |}).

(** [calculateSolar], the [onClick] of the button, as rendered in state
    [st], when its network call ends as [o]. *)
Definition calculateSolar (st : AppState) (o : fetch_outcome) : list effect :=
  match position st with
  | None => [ setError no_location_message ]
  | Some pos =>
      fst (emit (setLoading true) ;;
           emit (setError "") ;;
           finally
             (try_catch (calculateSolar_try pos st o)
                (fun err =>
                   emit (setError fetch_failed_message) ;;
                   emit (console_error err)))
             (emit (setLoading false)))
  end.

(** *** The suggestion line of the result panel

    [{tilt !== Math.round(solarData.optimalTilt) && (<li>...</li>)}]: the
    figure written into the line when it is rendered. *)
Definition improvement_figure (st : AppState) (d : SolarData) : number :=
  Math_abs (tilt st - optimalTilt d).

Definition suggestion_shown (st : AppState) (d : SolarData) : bool :=
  tilt st !== Math_round (optimalTilt d).

Definition suggestion_line (st : AppState) : option string :=
  match solarData st with
  | None => None
  | Some d =>
      if suggestion_shown st d then
        Some ("Anpassung des Neigungswinkels koennte den Ertrag um ca. " ++
              Number_toString (improvement_figure st d) ++ "% verbessern.")
      else None
  end.

(** *** User interaction

    What the user can do, with the handler each action is wired to. The
    sliders call their setter with [Number(e.target.value)], the text
    inputs theirs with [e.target.value]. The button is disabled while
    loading or without a position; [calculateSolar] is modelled for every
    state all the same. A calculation is one step: its effects are applied
    in program order, from the values of the render it was started in. *)
Inductive event :=
| map_click (pos : number * number)
| lat_change (v : string)
| lng_change (v : string)
| input_blur
| tilt_change (v : number)
| azimuth_change (v : number)
| shading_change (v : number)
| calculate_click (o : fetch_outcome).

Definition handle (st : AppState) (ev : event) : list effect :=
  match ev with
  | map_click pos => handlePositionChange pos
  | lat_change v => [ setLat v ]
  | lng_change v => [ setLng v ]
  | input_blur => handleLatLngInput st
  | tilt_change v => [ setTilt v ]
  | azimuth_change v => [ setAzimuth v ]
  | shading_change v => [ setShading v ]
  | calculate_click o => calculateSolar st o
  end.

Definition step (st : AppState) (ev : event) : AppState :=
  run st (handle st ev).

Definition steps (st : AppState) (evs : list event) : AppState :=
  fold_left step evs st.

(** A calculation succeeds when a position is selected, [fetch] resolves
    with an [ok] response and its body is read. *)
Definition succeeds (st : AppState) (o : fetch_outcome) : bool :=
  match position st, o with
  | Some _, inr {| ok := true; json := inr _ |} => true
  | _, _ => false
  end.

End App.

(** * Vocabulary of the properties *)

Import JS App.
Local Open Scope float_scope.
Local Open Scope js_scope.

(** The URL of the request. *)
Definition request_url (pos : number * number) (st : AppState) : string :=
  api_base ++ URLSearchParams.toString (request_params pos st).

(** The record a successful calculation stores. *)
Definition result_of (pos : number * number) (st : AppState) (data : PVcalc)
  : SolarData :=
  {| yearlyIrradiation := outputs_totals_fixed_E_y data;
     monthlyData := map E_m (outputs_monthly_fixed data);
     optimalTilt := Math_abs (fst pos);
     optimalAzimuth := if fst pos > 0 then 180 else 0;
     loss := shading st |}.

(** Outside the expected range [800, 2500]. *)
Definition implausible (y : number) : bool := (y < 800) || (y > 2500).

(** The seasonal check: the summer month (June in the north, December in
    the south) is not above the winter month. *)
Definition northern (pos : number * number) : bool := fst pos > 0.

Definition summer_value (pos : number * number) (md : list number) : number :=
  if northern pos then month md 5 else month md 11.

Definition winter_value (pos : number * number) (md : list number) : number :=
  if northern pos then month md 11 else month md 5.

Definition seasonal_anomaly (pos : number * number) (md : list number) : bool :=
  summer_value pos md <= winter_value pos md.

(** The outcome of a request that is answered with a readable body. *)
Definition success (data : PVcalc) : fetch_outcome :=
  inr {| ok := true; json := inr data |}.

(** What the [catch] block receives when the request fails: the rejection
    of [fetch], the error thrown for a response that is not [ok], or the
    rejection of [response.json()]. *)
Definition failure_of (o : fetch_outcome) : option exn :=
  match o with
  | inl e => Some e
  | inr {| ok := false |} => Some (Error "PVGIS API Fehler")
  | inr {| ok := true; json := inl e |} => Some e
  | inr {| ok := true; json := inr _ |} => None
  end.

(** The message a calculation with a position ends with, read off its
    outcome alone. *)
Definition final_message (o : fetch_outcome) : string :=
  match o with
  | inr {| ok := true; json := inr data |} =>
      if implausible (outputs_totals_fixed_E_y data)
      then plausibility_warning (outputs_totals_fixed_E_y data)
      else ""
  | _ => fetch_failed_message
  end.

Definition is_fetch (e : effect) : bool :=
  match e with fetch_call _ => true | _ => false end.

Definition is_console (e : effect) : bool :=
  match e with console_warn _ | console_error _ => true | _ => false end.

(** A text field parses when [parseFloat] does not give NaN. *)
Definition parses (text : string) : bool := negb (isNaN (parseFloat text)).

Definition within (lo x hi : number) : bool := (x >= lo) && (x <= hi).

(** Both fields parse, the latitude is in [-90, 90] and the longitude in
    [-180, 180]. *)
Definition valid_entry (latText lngText : string) : bool :=
  parses latText && parses lngText &&
  within (-90) (parseFloat latText) 90 &&
  within (-180) (parseFloat lngText) 180.

(** A number of whole degrees, as a slider with the default step 1
    delivers. *)
Definition whole (x : number) : Prop := Math_round x = x.

Definition is_digit (c : ascii) : bool :=
  match digit_value c with Some _ => true | None => false end.

Fixpoint all_digits (s : string) : bool :=
  match s with
  | EmptyString => true
  | String c r => is_digit c && all_digits r
  end.

Fixpoint skip_digits (s : string) : string :=
  match s with
  | String c r => if is_digit c then skip_digits r else s
  | EmptyString => s
  end.

(** [s] is written with [k] decimal places: an optional minus sign, at
    least one digit, a point and exactly [k] digits. *)
Definition decimal_places (k : nat) (s : string) : bool :=
  let body :=
    match s with
    | String c r => if Ascii.eqb c "-" then r else s
    | EmptyString => s
    end in
  match body with
  | String c r =>
      is_digit c &&
      match skip_digits r with
      | String c' f => Ascii.eqb c' "." && all_digits f && (String.length f =? k)%nat
      | EmptyString => false
      end
  | EmptyString => false
  end.

(** [toFixed] takes its fixed-notation branch on [x]: [x] is finite and
    its exact value is below [10^21] in magnitude. *)
Definition fixed_notation (x : number) : bool :=
  match Prim2SF x with
  | S754_finite _ m e =>
      let '(P, D) := exact_ratio m e in negb (10 ^ 21 * D <=? P)%Z
  | S754_zero _ => true
  | _ => false
  end.

(** The integers [lo], [lo + 1], ..., [lo + n - 1]. *)
Definition Z_range (lo : Z) (n : nat) : list Z :=
  map (fun i => (lo + Z.of_nat i)%Z) (seq 0 n).

(** A whole number is written as its decimal numeral, and subtracting 180
    from a whole azimuth gives the numeral of the difference. *)
Definition numeral_ok (z : Z) : bool :=
  String.eqb (Number_toString (of_Z z)) (string_of_Z z).

Definition aspect_ok (a : Z) : bool :=
  String.eqb (Number_toString (of_Z a - 180)) (string_of_Z (a - 180)).

(** ** Sessions used in the examples

    The user clicks the map at (51.1657, 10.4515) and keeps the default
    panel; the service answers with twelve monthly values and a yearly
    total. *)

Definition example_months : list MonthlyEntry :=
  map Build_MonthlyEntry
    [ 30.5; 52.25; 91; 118.5; 131; 139.75; 141; 128.5; 101; 66.25; 34; 26.5 ].

Definition example_data (E_y : number) : PVcalc :=
  {| outputs_monthly_fixed := example_months;
     outputs_totals_fixed_E_y := E_y |}.

Definition clicked : AppState := step initial (map_click (51.1657, 10.4515)).

(** The state after a first, successful calculation. *)
Definition calculated : AppState :=
  step clicked (calculate_click (success (example_data 1184))).

(** A request that never reaches the service. *)
Definition offline : fetch_outcome := inl (Rejection "Failed to fetch").

(** Monthly values of a southern profile (June the lowest). *)
Definition southern_profile : PVcalc :=
  {| outputs_monthly_fixed :=
       map Build_MonthlyEntry
         [ 141; 128.5; 101; 66.25; 34; 26.5; 30.5; 52.25; 91; 118.5; 131; 139.75 ];
     outputs_totals_fixed_E_y := 1184 |}.

(** The user clicks at latitude 48.25, sets the tilt slider to 20 and
    calculates. *)
Definition tilted_session : AppState :=
  steps initial [ map_click (48.25, 11.5); tilt_change 20;
                  calculate_click (success (example_data 1184)) ].

(** The user types a pair of coordinates into the two fields. *)
Definition typed (latText lngText : string) : AppState :=
  steps initial [ lat_change latText; lng_change lngText ].


(** * The rest of the component

    The slider handlers with the conversion [Number(e.target.value)], and
    what [App] and [LocationMarker] render from the state: the marker, the
    button, the message, and the result panel with its chart. *)

(** ** Number(string)

    [Number] applied to a string: white space is trimmed at both ends; the
    empty string is [+0]; the rest must be, as a whole, a StrDecimalLiteral
    or an unsigned binary, octal or hexadecimal integer literal; anything
    else is NaN. *)

Module ToNumber.

Fixpoint rev_onto (s acc : string) : string :=
  match s with
  | EmptyString => acc
  | String c r => rev_onto r (String c acc)
  end.

Definition trim_end (s : string) : string :=
  rev_onto (trim_start (rev_onto s "")) "".

Definition trim (s : string) : string := trim_end (trim_start s).

(** The value of a digit in a radix up to 16. *)
Definition radix_digit (radix : Z) (c : ascii) : option Z :=
  let n := Z.of_nat (nat_of_ascii c) in
  let v :=
    (if (48 <=? n) && (n <=? 57) then n - 48
     else if (97 <=? n) && (n <=? 102) then n - 87
     else if (65 <=? n) && (n <=? 70) then n - 55
     else 16)%Z in
  if (v <? radix)%Z then Some v else None.

(** The digits of a whole string in the radix; [None] when a code unit is
    not one. *)
Fixpoint radix_value (radix : Z) (s : string) (acc : Z) : option Z :=
  match s with
  | EmptyString => Some acc
  | String c r =>
      match radix_digit radix c with
      | Some d => radix_value radix r (radix * acc + d)%Z
      | None => None
      end
  end.

Definition non_decimal (radix : Z) (digits : string) : number :=
  match digits with
  | EmptyString => nan
  | _ =>
      match radix_value radix digits 0 with
      | Some v => of_Z v
      | None => nan
      end
  end.

(** An ExponentPart at the head of [s] and what follows it; [None] when [s]
    starts with [e] or [E] but not with an ExponentPart. Without [e], the
    exponent is 0 and nothing is read. *)
Definition exponent_and_rest (s : string) : option (Z * string) :=
  match s with
  | String c r =>
      if (Ascii.eqb c "e" || Ascii.eqb c "E")%bool then
        let '(eneg, r1) := read_sign r in
        let '(ev, ec, r2) := read_digits r1 0 0 in
        if (ec =? 0)%Z then None else Some (if eneg then (- ev)%Z else ev, r2)
      else Some (0%Z, s)
  | EmptyString => Some (0%Z, s)
  end.

(** A whole StrDecimalLiteral. *)
Definition decimal (s : string) : number :=
  let '(neg, s1) := read_sign s in
  if String.eqb s1 "Infinity" then (if neg then neg_infinity else infinity)
  else
    let '(ip, ic, s2) := read_digits s1 0 0 in
    let '(mant, fc, s3) :=
      match s2 with
      | String "." r => read_digits r ip 0
      | _ => (ip, 0%Z, s2)
      end in
    if (ic =? 0)%Z && (fc =? 0)%Z then nan
    else
      match exponent_and_rest s3 with
      | Some (ex, EmptyString) => SF2Prim (SF_of_decimal neg mant (ex - fc))
      | _ => nan
      end.

Definition StringToNumber (input : string) : number :=
  match trim input with
  | EmptyString => zero
  | String "0" (String "x" r) | String "0" (String "X" r) => non_decimal 16 r
  | String "0" (String "o" r) | String "0" (String "O" r) => non_decimal 8 r
  | String "0" (String "b" r) | String "0" (String "B" r) => non_decimal 2 r
  | s => decimal s
  end.

End ToNumber.

(** ** The inline handlers of the inputs

    [(e) => setTilt(Number(e.target.value))] and its two siblings, given
    the [value] of the range input. *)

Module Sliders.

Import ToNumber.

Definition onTiltChange (value : string) : list effect :=
  [ setTilt (StringToNumber value) ].

Definition onAzimuthChange (value : string) : list effect :=
  [ setAzimuth (StringToNumber value) ].

Definition onShadingChange (value : string) : list effect :=
  [ setShading (StringToNumber value) ].

End Sliders.

(** ** What is rendered *)

Module Render.

(** [LocationMarker]: a marker at the position, or nothing. *)
Definition LocationMarker (position : option (number * number))
  : option (number * number) :=
  match position with
  | Some pos => Some pos
  | None => None
  end.

(** [disabled={loading || !position}]. *)
Definition button_disabled (st : AppState) : bool :=
  loading st ||
  negb (match position st with Some _ => true | None => false end).

Definition button_label (st : AppState) : string :=
  if loading st then "Berechne..." else "Berechnen".

(** [{error && (...)}]: the message box, absent for the empty string. *)
Definition error_box (st : AppState) : option string :=
  match error st with
  | EmptyString => None
  | msg => Some msg
  end.

Definition months : list string :=
  [ "Jan"; "Feb"; "Mar"; "Apr"; "Mai"; "Jun";
    "Jul"; "Aug"; "Sep"; "Okt"; "Nov"; "Dez" ].

(** [Math.max(...values)]: -Infinity for no value, NaN as soon as a value
    is NaN, and [+0] above [-0]. *)
Fixpoint Math_max_from (highest : number) (values : list number) : number :=
  match values with
  | [] => highest
  | x :: rest =>
      if isNaN x then nan
      else
        let highest :=
          if (PrimFloat.Leibniz.eqb x zero &&
              PrimFloat.Leibniz.eqb highest neg_zero)%bool
          then zero else highest in
        Math_max_from (if x > highest then x else highest) rest
  end.

Definition Math_max (values : list number) : number :=
  Math_max_from neg_infinity values.

(** One bar of the chart: its key and label, the [height] of its style and
    its [title]. *)
Record bar := {
  bar_month : string;
  bar_height : string;
  bar_title : string
}.

(** [months.map((month, i) => ...)]. Reading [monthlyData[i]] past the end
    gives [undefined], on which [value.toFixed(1)] throws: the render
    fails, which is [None] here. *)
Fixpoint chart_bars (ms : list string) (i : nat) (d : SolarData)
  : option (list bar) :=
  match ms with
  | [] => Some []
  | month :: rest =>
      match nth_error (monthlyData d) i with
      | None => None
      | Some value =>
          let maxVal := Math_max (monthlyData d) in
          let height := (value / maxVal) * 100 in
          match chart_bars rest (S i) d with
          | None => None
          | Some bars =>
              Some ({| bar_month := month;
                       bar_height := Number_toString height ++ "%";
                       bar_title := month ++ ": " ++ toFixed value 1 ++ " kWh/m2" |}
                    :: bars)
          end
      end
  end.

Definition chart (d : SolarData) : option (list bar) := chart_bars months 0 d.

(** The texts of the result panel. [position?.[0].toFixed(2)] is
    [undefined] without a position. *)
Definition location_text (st : AppState) : option string :=
  match position st with
  | Some pos => Some (toFixed (fst pos) 2)
  | None => None
  end.

Definition tilt_text (d : SolarData) : string := toFixed (optimalTilt d) 0.

Definition orientation_label (d : SolarData) : string :=
  if optimalAzimuth d === 180 then "Sued (180 Grad)" else "Nord (0 Grad)".

(** [{solarData && (...)}]: the result panel is rendered when a result is
    stored. *)
Definition panel_shown (st : AppState) : bool :=
  match solarData st with Some _ => true | None => false end.

End Render.

(** ** Vocabulary of the further properties *)

Import ToNumber Sliders Render.

(** The calculations of a session are started from the button: none while
    it is disabled. *)
Fixpoint through_button (st : AppState) (evs : list event) : bool :=
  match evs with
  | [] => true
  | ev :: rest =>
      match ev with
      | calculate_click _ => negb (button_disabled st)
      | _ => true
      end && through_button (step st ev) rest
  end.

Definition is_calculation (ev : event) : bool :=
  match ev with calculate_click _ => true | _ => false end.

Definition no_NaN (values : list number) : bool :=
  forallb (fun x => negb (isNaN x)) values.

(** Finite and not zero. *)
Definition finite_nonzero (x : number) : bool :=
  is_finite x && negb (is_zero x).

(** The number of occurrences of a code unit. *)
Fixpoint count (c : ascii) (s : string) : nat :=
  match s with
  | EmptyString => O
  | String c' r => ((if Ascii.eqb c' c then 1 else 0) + count c r)%nat
  end.

(** A slider delivers its value as a decimal numeral. *)
Definition slider_ok (z : Z) : bool :=
  let v := StringToNumber (string_of_Z z) in
  PrimFloat.Leibniz.eqb v (of_Z z) &&
  PrimFloat.Leibniz.eqb (Math_round v) v &&
  String.eqb (Number_toString v) (string_of_Z z).

(** The number a decimal numeral denotes, read onto [acc] from its most
    significant digit. *)
Fixpoint uint_value (u : Decimal.uint) (acc : Z) : Z :=
  match u with
  | Decimal.Nil => acc
  | Decimal.D0 l => uint_value l (10 * acc + 0)%Z
  | Decimal.D1 l => uint_value l (10 * acc + 1)%Z
  | Decimal.D2 l => uint_value l (10 * acc + 2)%Z
  | Decimal.D3 l => uint_value l (10 * acc + 3)%Z
  | Decimal.D4 l => uint_value l (10 * acc + 4)%Z
  | Decimal.D5 l => uint_value l (10 * acc + 5)%Z
  | Decimal.D6 l => uint_value l (10 * acc + 6)%Z
  | Decimal.D7 l => uint_value l (10 * acc + 7)%Z
  | Decimal.D8 l => uint_value l (10 * acc + 8)%Z
  | Decimal.D9 l => uint_value l (10 * acc + 9)%Z
  end.

(** The decimal [n / 10^f] that [toFixed] writes for [x], as a pair of its
    sign and [n]; [None] where [toFixed] does not use the fixed notation. *)
Definition fixed_decimal (x : number) (f : nat) : option (bool * Z) :=
  match Prim2SF x with
  | S754_finite s m e =>
      let '(P, D) := exact_ratio m e in
      if (10 ^ 21 * D <=? P)%Z then None else Some (s, scaled_round f P D)
  | S754_zero _ => Some (false, 0%Z)
  | _ => None
  end.

(** The Number nearest to that decimal: [x] rounded to [f] decimals. *)
Definition rounded_decimal (x : number) (f : nat) : option number :=
  match fixed_decimal x f with
  | Some (s, n) => Some (SF2Prim (SF_of_decimal s n (- Z.of_nat f)))
  | None => None
  end.
(** * Properties *)

(** ** Comparisons of floats *)

Lemma SFcompare_antisym x y :
  SFcompare y x = option_map CompOpp (SFcompare x y).
Proof.
  destruct x as [sx | sx | | sx mx ex], y as [sy | sy | | sy my ey];
    try destruct sx; try destruct sy; try reflexivity; cbn;
    rewrite (Z.compare_antisym ex ey);
    destruct (ex ?= ey)%Z; cbn; try reflexivity;
    change (Pos.compare_cont Eq my mx) with (Pos.compare my mx);
    change (Pos.compare_cont Eq mx my) with (Pos.compare mx my);
    rewrite (Pos.compare_antisym mx my);
    destruct (mx ?= my)%positive; reflexivity.
Qed.

(** [a <= b] excludes [b < a]. *)
Lemma le_not_gt (a b : number) :
  (a <= b) = true -> (b < a) = false.
Proof.
  unfold JS.le, JS.lt. rewrite leb_spec, ltb_spec.
  unfold SFleb, SFltb. rewrite (SFcompare_antisym (Prim2SF a) (Prim2SF b)).
  destruct (SFcompare (Prim2SF a) (Prim2SF b)) as [[]|]; cbn; congruence.
Qed.

Lemma within_range_plausible (y : number) :
  within 800 y 2500 = true -> implausible y = false.
Proof.
  unfold within, JS.ge. intros H. apply andb_prop in H. destruct H as [H1 H2].
  unfold implausible, JS.gt.
  change (y < 800) with (JS.lt y 800).
  change (800 <=? y)%float with (JS.le 800 y) in H1.
  rewrite (le_not_gt _ _ H1).
  change (2500 <? y)%float with (JS.lt 2500 y).
  now rewrite (le_not_gt _ _ H2).
Qed.

(** The mantissa of a float has at most 53 bits. *)
Lemma digits2_pos_bound m : (Zpos m < 2 ^ Zpos (digits2_pos m))%Z.
Proof.
  induction m as [m IH | m IH |]; cbn [digits2_pos].
  - rewrite Pos2Z.inj_succ, Z.pow_succ_r by lia. lia.
  - rewrite Pos2Z.inj_succ, Z.pow_succ_r by lia. lia.
  - reflexivity.
Qed.

Lemma valid_mantissa_bound m e :
  bounded prec emax m e = true -> (Zpos m < 9007199254740992)%Z.
Proof.
  unfold bounded, canonical_mantissa, fexp. intros H.
  apply andb_prop in H. destruct H as [H _]. apply Z.eqb_eq in H.
  pose proof (digits2_pos_bound m) as B.
  assert (D : (Zpos (digits2_pos m) <= 53)%Z) by (unfold FloatOps.prec in H; lia).
  eapply Z.lt_le_trans; [exact B |].
  change 9007199254740992%Z with (2 ^ 53)%Z.
  apply Z.pow_le_mono_r; lia.
Qed.

(** [toFixed] uses the fixed notation for every number below 1e21 in
    magnitude. *)
Lemma fixed_notation_below_1e21 x :
  (Math_abs x < 1e21) = true -> fixed_notation x = true.
Proof.
  unfold JS.lt, Math_abs, fixed_notation. rewrite ltb_spec, abs_spec.
  pose proof (Prim2SF_valid x) as V.
  replace (Prim2SF 1e21) with (S754_finite false 7629394531250000 17)
    by (vm_compute; reflexivity).
  destruct (Prim2SF x) as [s | s | | s m e]; cbn [SFabs];
    try reflexivity; try discriminate.
  cbn [valid_binary] in V. apply valid_mantissa_bound in V.
  unfold SFltb, SFcompare, exact_ratio.
  destruct (Z.compare_spec e 17) as [-> | L | G]; try discriminate.
  - change (0 <=? 17)%Z with true. cbv iota.
    destruct (Pos.compare_cont Eq m 7629394531250000) eqn:C; try discriminate.
    assert (L : (m < 7629394531250000)%positive) by exact C.
    intros _. apply negb_true_iff, Z.leb_gt.
    replace (10 ^ 21 * 1)%Z with 1000000000000000000000%Z
      by (vm_compute; reflexivity).
    replace (2 ^ 17)%Z with 131072%Z by (vm_compute; reflexivity).
    clear V C. apply Pos2Z.pos_lt_pos in L.
    change (Z.pos 7629394531250000) with 7629394531250000%Z in L. lia.
  - intros _.
    replace (10 ^ 21)%Z with 1000000000000000000000%Z
      by (vm_compute; reflexivity).
    destruct (Z.leb_spec 0 e) as [P | N]; apply negb_true_iff, Z.leb_gt.
    + assert (2 ^ e <= 2 ^ 16)%Z by (apply Z.pow_le_mono_r; lia).
      assert (0 < 2 ^ e)%Z by (apply Z.pow_pos_nonneg; lia).
      replace (2 ^ 16)%Z with 65536%Z in * by (vm_compute; reflexivity). nia.
    + assert (1 <= 2 ^ (- e))%Z by (apply (Z.pow_le_mono_r 2 0 (- e)); lia).
      nia.
Qed.

(** ** Decimal strings *)

Lemma digit_char_is_digit d :
  (0 <= d < 10)%Z -> is_digit (digit_char d) = true.
Proof.
  intros H.
  assert (K : (d = 0 \/ d = 1 \/ d = 2 \/ d = 3 \/ d = 4 \/ d = 5 \/ d = 6 \/
               d = 7 \/ d = 8 \/ d = 9)%Z) by lia.
  repeat (destruct K as [-> | K]; [reflexivity |]). now subst.
Qed.

Lemma all_digits_app a b :
  all_digits (a ++ b) = all_digits a && all_digits b.
Proof.
  induction a as [| c a IH]; [reflexivity |].
  cbn. rewrite IH. now rewrite andb_assoc.
Qed.

Lemma length_app a b :
  String.length (a ++ b) = (String.length a + String.length b)%nat.
Proof.
  induction a as [| c a IH]; [reflexivity |]. cbn. now rewrite IH.
Qed.

Lemma digits_fixed_digits k : forall n, all_digits (digits_fixed k n) = true.
Proof.
  induction k as [| k IH]; intros n; [reflexivity |].
  cbn [digits_fixed]. rewrite all_digits_app, IH. cbn [all_digits andb].
  rewrite digit_char_is_digit; [reflexivity |].
  apply Z.mod_pos_bound. lia.
Qed.

Lemma digits_fixed_length k : forall n, String.length (digits_fixed k n) = k.
Proof.
  induction k as [| k IH]; intros n; [reflexivity |].
  cbn [digits_fixed]. rewrite length_app, IH. cbn. lia.
Qed.

Lemma uint_digits u : all_digits (NilEmpty.string_of_uint u) = true.
Proof.
  induction u; cbn [NilEmpty.string_of_uint all_digits]; rewrite ?IHu;
    reflexivity.
Qed.

(** The decimal representation of a natural number is a digit followed by
    digits. *)
Lemma string_of_nonneg_digits n :
  exists c r, string_of_nonneg n = String c r /\
              is_digit c = true /\ all_digits r = true.
Proof.
  unfold string_of_nonneg, NilZero.string_of_uint.
  pose proof (uint_digits (N.to_uint (Z.to_N n))) as H.
  destruct (N.to_uint (Z.to_N n)) as [| u | u | u | u | u | u | u | u | u | u];
    cbn [NilEmpty.string_of_uint] in *;
    eexists; eexists; (split; [reflexivity |]); split;
    try reflexivity; cbn in H; exact H.
Qed.

Lemma skip_digits_point r f :
  all_digits r = true ->
  skip_digits (r ++ String "." f) = String "." f.
Proof.
  induction r as [| c r IH]; intros H; [reflexivity |].
  cbn in H. apply andb_prop in H. destruct H as [Hc Hr].
  cbn. rewrite Hc. now apply IH.
Qed.

Lemma is_digit_not_minus c : is_digit c = true -> Ascii.eqb c "-" = false.
Proof.
  intros H.
  destruct (Ascii.eqb_spec c "-") as [-> |]; [discriminate H | reflexivity].
Qed.

Lemma fixed_digits_decimal_places neg f n :
  decimal_places (S f) (sign_string neg ++ fixed_digits (S f) n) = true.
Proof.
  unfold fixed_digits.
  destruct (string_of_nonneg_digits (n / 10 ^ Z.of_nat (S f)))
    as [c [r [E [Hc Hr]]]].
  rewrite E.
  assert (K : decimal_places (S f)
                (String c r ++ "." ++ digits_fixed (S f) (n mod 10 ^ Z.of_nat (S f)))
              = true).
  { unfold decimal_places. cbn [append]. rewrite (is_digit_not_minus c Hc), Hc.
    change ("." ++ ?s) with (String "." s).
    rewrite (skip_digits_point r _ Hr).
    rewrite digits_fixed_digits, digits_fixed_length, Nat.eqb_refl. reflexivity. }
  destruct neg; [| exact K].
  unfold decimal_places in *. cbn [sign_string append] in *.
  rewrite (is_digit_not_minus c Hc) in K. exact K.
Qed.

(** [toFixed] with a positive number of places writes exactly that many
    decimal places, for every finite number below [10^21]. *)
Lemma toFixed_decimal_places x f :
  fixed_notation x = true -> decimal_places (S f) (toFixed x (S f)) = true.
Proof.
  unfold fixed_notation, toFixed. destruct (Prim2SF x) as [s | s | | s m e].
  - intros _. apply (fixed_digits_decimal_places false).
  - discriminate.
  - discriminate.
  - destruct (exact_ratio m e) as [P D].
    destruct (10 ^ 21 * D <=? P)%Z; [discriminate |].
    intros _. apply fixed_digits_decimal_places.
Qed.

(** ** Whole slider values *)

Lemma in_Z_range lo n z :
  (lo <= z < lo + Z.of_nat n)%Z -> In z (Z_range lo n).
Proof.
  intros H. unfold Z_range. apply in_map_iff.
  exists (Z.to_nat (z - lo)). split; [lia |].
  apply in_seq. lia.
Qed.

Lemma numerals_checked : forallb numeral_ok (Z_range 0 91) = true.
Proof. vm_compute. reflexivity. Qed.

Lemma aspects_checked : forallb aspect_ok (Z_range 0 361) = true.
Proof. vm_compute. reflexivity. Qed.

Lemma slider_numeral z :
  (0 <= z <= 90)%Z -> Number_toString (of_Z z) = string_of_Z z.
Proof.
  intros H. apply String.eqb_eq.
  apply (proj1 (forallb_forall numeral_ok _) numerals_checked).
  apply in_Z_range. lia.
Qed.

Lemma aspect_numeral a :
  (0 <= a <= 360)%Z ->
  Number_toString (of_Z a - 180) = string_of_Z (a - 180).
Proof.
  intros H. apply String.eqb_eq.
  apply (proj1 (forallb_forall aspect_ok _) aspects_checked).
  apply in_Z_range. lia.
Qed.

(** ** The effects of [calculateSolar], case by case *)

Ltac by_checks :=
  destruct (implausible _); destruct (seasonal_anomaly _ _); reflexivity.

(** A request ends in a readable body or in what [catch] receives. *)
Lemma outcome_cases (o : fetch_outcome) :
  (exists data, o = success data) \/ (exists e, failure_of o = Some e).
Proof.
  destruct o as [e | [[] [e | d]]]; cbn; eauto.
  left. now exists d.
Qed.

Lemma calculateSolar_no_position st o :
  position st = None ->
  calculateSolar st o = [ setError no_location_message ].
Proof.
  intros H. unfold calculateSolar. now rewrite H.
Qed.

Section WithPosition.

Variables (st : AppState) (pos : number * number).
Hypothesis selected : position st = Some pos.

Lemma calculateSolar_success data :
  calculateSolar st (success data) =
    ([ setLoading true; setError ""; fetch_call (request_url pos st) ] ++
     (if implausible (outputs_totals_fixed_E_y data)
      then [ setError (plausibility_warning (outputs_totals_fixed_E_y data)) ]
      else []) ++
     (if seasonal_anomaly pos (map E_m (outputs_monthly_fixed data))
      then [ console_warn seasonal_notice ] else []) ++
     [ setSolarData (result_of pos st data); setLoading false ])%list.
Proof.
  unfold calculateSolar. rewrite selected.
  unfold calculateSolar_try, success, implausible, seasonal_anomaly,
    summer_value, winter_value, northern, result_of, request_url.
  cbn [fetch await_json bind emit ret throw when finally try_catch fst snd
       ok json negb app].
  destruct (_ || _); destruct (fst pos > 0);
    match goal with |- context [if ?c then _ else _] => destruct c end;
    reflexivity.
Qed.

Lemma calculateSolar_failure o e :
  failure_of o = Some e ->
  calculateSolar st o =
    [ setLoading true; setError ""; fetch_call (request_url pos st);
      setError fetch_failed_message; console_error e; setLoading false ].
Proof.
  intros F. unfold calculateSolar. rewrite selected.
  unfold calculateSolar_try, request_url.
  destruct o as [e0 | [[] [e0 | d]]]; cbn in F; inversion F; subst; reflexivity.
Qed.

Lemma calculateSolar_fetches_once o :
  filter is_fetch (calculateSolar st o) = [ fetch_call (request_url pos st) ].
Proof.
  destruct (outcome_cases o) as [[data ->] | [e F]].
  - rewrite calculateSolar_success. by_checks.
  - rewrite (calculateSolar_failure _ _ F). reflexivity.
Qed.

(** The state a calculation leaves behind when its effects are applied to
    [st0]. *)
Lemma run_success st0 data :
  run st0 (calculateSolar st (success data)) =
    {| position := position st0; lat := lat st0; lng := lng st0;
       tilt := tilt st0; azimuth := azimuth st0; shading := shading st0;
       loading := false;
       error := if implausible (outputs_totals_fixed_E_y data)
                then plausibility_warning (outputs_totals_fixed_E_y data)
                else "";
       solarData := Some (result_of pos st data) |}.
Proof.
  rewrite calculateSolar_success. by_checks.
Qed.

Lemma run_failure st0 o e :
  failure_of o = Some e ->
  run st0 (calculateSolar st o) =
    {| position := position st0; lat := lat st0; lng := lng st0;
       tilt := tilt st0; azimuth := azimuth st0; shading := shading st0;
       loading := false;
       error := fetch_failed_message;
       solarData := solarData st0 |}.
Proof.
  intros F. rewrite (calculateSolar_failure _ _ F). reflexivity.
Qed.

End WithPosition.

Lemma final_message_failure o e :
  failure_of o = Some e -> final_message o = fetch_failed_message.
Proof.
  destruct o as [e0 | [[] [e0 | d]]]; cbn; intros F;
    try reflexivity; discriminate F.
Qed.

(** A calculation that does not succeed changes nothing but the message
    and the loading flag. *)
Lemma failed_run_keeps_result st st0 o :
  succeeds st o = false ->
  solarData (run st0 (calculateSolar st o)) = solarData st0.
Proof.
  intros S. destruct (position st) as [pos |] eqn:H.
  - destruct (outcome_cases o) as [[data ->] | [e F]].
    + unfold succeeds in S. rewrite H in S. discriminate S.
    + now rewrite (run_failure st pos H st0 o e F).
  - now rewrite (calculateSolar_no_position st o H).
Qed.

(** Only a successful calculation changes the stored result. *)
Lemma step_solarData st ev :
  solarData (step st ev) = solarData st \/
  (exists o, ev = calculate_click o /\ succeeds st o = true).
Proof.
  destruct ev as [pos | v | v | | v | v | v | o]; try (left; reflexivity).
  - left. unfold step, handle, handleLatLngInput.
    match goal with |- context [if ?c then _ else _] => destruct c end;
      reflexivity.
  - destruct (succeeds st o) eqn:S.
    + right. now exists o.
    + left. apply (failed_run_keeps_result st st o S).
Qed.

Lemma steps_app st evs1 evs2 :
  steps st (evs1 ++ evs2)%list = steps (steps st evs1) evs2.
Proof. apply fold_left_app. Qed.

Lemma result_needs_success evs :
  solarData (steps initial evs) <> None ->
  exists evs1 o evs2,
    evs = (evs1 ++ calculate_click o :: evs2)%list /\
    succeeds (steps initial evs1) o = true.
Proof.
  induction evs as [| ev evs IH] using rev_ind; intros H.
  - now contradiction H.
  - rewrite steps_app in H. cbn in H.
    destruct (step_solarData (steps initial evs) ev) as [E | [o [-> S]]].
    + rewrite E in H. destruct (IH H) as [evs1 [o [evs2 [-> S]]]].
      exists evs1, o, (evs2 ++ [ev])%list. split; [| exact S].
      now rewrite <- app_assoc.
    + exists evs, o, []. split; [reflexivity | exact S].
Qed.

Lemma handleLatLngInput_valid st :
  handleLatLngInput st =
    if valid_entry (lat st) (lng st)
    then [ setPosition (parseFloat (lat st), parseFloat (lng st)) ]
    else [].
Proof.
  unfold handleLatLngInput, valid_entry, parses, within.
  destruct (isNaN (parseFloat (lat st))); [reflexivity |].
  destruct (isNaN (parseFloat (lng st))); [reflexivity |].
  cbn [negb andb].
  destruct (parseFloat (lat st) >= -90); [| reflexivity].
  destruct (parseFloat (lat st) <= 90); [| reflexivity].
  reflexivity.
Qed.

(** * The coordinate store *)

(** ** C9: a click on the map *)

(** C9. A click on the map always replaces the position by the clicked
    pair and both text fields by [toFixed(5)] of the coordinates, and
    touches nothing else; for coordinates below 1e21 in magnitude (every
    coordinate a map delivers) the two texts have exactly five decimal
    places. *)
Theorem map_click_sets_position st pos :
  handlePositionChange pos =
    [ setPosition pos; setLat (toFixed (fst pos) 5); setLng (toFixed (snd pos) 5) ] /\
  step st (map_click pos) =
    {| position := Some pos;
       lat := toFixed (fst pos) 5;
       lng := toFixed (snd pos) 5;
       tilt := tilt st; azimuth := azimuth st; shading := shading st;
       loading := loading st; error := error st; solarData := solarData st |} /\
  ((Math_abs (fst pos) < 1e21) = true ->
   decimal_places 5 (lat (step st (map_click pos))) = true) /\
  ((Math_abs (snd pos) < 1e21) = true ->
   decimal_places 5 (lng (step st (map_click pos))) = true).
Proof.
  split; [reflexivity |]. split; [reflexivity |].
  split; intros H; apply (toFixed_decimal_places _ 4);
    apply fixed_notation_below_1e21; exact H.
Qed.

Lemma map_click_sets_position_witness :
  position (step calculated (map_click (-33.8688197, 151.2092955))) =
    Some (-33.8688197, 151.2092955) /\
  lat (step calculated (map_click (-33.8688197, 151.2092955))) = "-33.86882" /\
  lng (step calculated (map_click (-33.8688197, 151.2092955))) = "151.20930" /\
  solarData (step calculated (map_click (-33.8688197, 151.2092955))) =
    solarData calculated /\
  decimal_places 5 (lat (step calculated (map_click (-33.8688197, 151.2092955))))
    = true /\
  decimal_places 5 (lng (step calculated (map_click (-33.8688197, 151.2092955))))
    = true.
Proof.
  destruct (map_click_sets_position calculated (-33.8688197, 151.2092955))
    as [_ [E [P1 P2]]].
  split; [rewrite E; reflexivity |].
  split; [rewrite E; vm_compute; reflexivity |].
  split; [rewrite E; vm_compute; reflexivity |].
  split; [rewrite E; reflexivity |].
  split; [apply P1 | apply P2]; vm_compute; reflexivity.
Defined.

(** The click of the specification's scenario, and coordinates that round
    to zero. *)
Example map_click_examples :
  step initial (map_click (51.1657, 10.4515)) =
    {| position := Some (51.1657, 10.4515);
       lat := "51.16570"; lng := "10.45150";
       tilt := 35; azimuth := 180; shading := 0;
       loading := false; error := ""; solarData := None |} /\
  handlePositionChange (0, -0.000001) =
    [ setPosition (0, -0.000001); setLat "0.00000"; setLng "-0.00000" ].
Proof. repeat split; vm_compute; reflexivity. Qed.

(** ** C3: manual entry of the coordinates *)

(** C3. On blur the position is replaced by the parsed pair exactly when
    both fields parse and the values are in range; in every other case the
    handler calls no setter, so the position and every other cell, the
    message included, stay as they were. A valid entry changes nothing but
    the position. *)
Theorem manual_entry st :
  (valid_entry (lat st) (lng st) = true ->
   handleLatLngInput st =
     [ setPosition (parseFloat (lat st), parseFloat (lng st)) ] /\
   position (step st input_blur) =
     Some (parseFloat (lat st), parseFloat (lng st))) /\
  (valid_entry (lat st) (lng st) = false ->
   handleLatLngInput st = [] /\ step st input_blur = st) /\
  error (step st input_blur) = error st /\
  lat (step st input_blur) = lat st /\
  lng (step st input_blur) = lng st /\
  solarData (step st input_blur) = solarData st.
Proof.
  unfold step, handle. rewrite handleLatLngInput_valid.
  destruct (valid_entry (lat st) (lng st)); cbn.
  - repeat split; auto; try discriminate.
  - repeat split; auto; try discriminate.
Qed.

Lemma manual_entry_witness :
  (handleLatLngInput (typed "48.5" "11.25") = [ setPosition (48.5, 11.25) ] /\
   position (step (typed "48.5" "11.25") input_blur) = Some (48.5, 11.25)) /\
  (handleLatLngInput (typed "91" "11.25") = [] /\
   step (typed "91" "11.25") input_blur = typed "91" "11.25").
Proof.
  split.
  - apply (proj1 (manual_entry (typed "48.5" "11.25"))).
    vm_compute. reflexivity.
  - apply (proj1 (proj2 (manual_entry (typed "91" "11.25")))).
    vm_compute. reflexivity.
Defined.

(** A pair that is accepted, the bounds themselves, a latitude and a
    longitude out of range, a field that is not a number, an empty field,
    and a field of which only a prefix is a number. *)
Example manual_entry_examples :
  handleLatLngInput (typed "48.5" "11.25") = [ setPosition (48.5, 11.25) ] /\
  handleLatLngInput (typed "-90" "180") = [ setPosition (-90, 180) ] /\
  handleLatLngInput (typed "91" "11.25") = [] /\
  handleLatLngInput (typed "48.5" "-180.5") = [] /\
  handleLatLngInput (typed "abc" "11.25") = [] /\
  handleLatLngInput (typed "48.5" "") = [] /\
  handleLatLngInput (typed "Infinity" "11.25") = [] /\
  handleLatLngInput (typed "48.5N" "11.25E") = [ setPosition (48.5, 11.25) ].
Proof. repeat split; vm_compute; reflexivity. Qed.

(** * The irradiation query *)

(** ** C4: calculating without a position *)

(** C4. When no position is selected, [calculateSolar] only sets the
    "no location selected" message: it makes no network call, and the stored
    result, the loading flag and every other cell keep their value. *)
Theorem calculate_without_position st o :
  position st = None ->
  calculateSolar st o = [ setError no_location_message ] /\
  filter is_fetch (calculateSolar st o) = [] /\
  step st (calculate_click o) =
    {| position := None; lat := lat st; lng := lng st;
       tilt := tilt st; azimuth := azimuth st; shading := shading st;
       loading := loading st;
       error := "Bitte waehlen Sie einen Standort auf der Karte.";
       solarData := solarData st |}.
Proof.
  intros H. unfold step, handle.
  rewrite (calculateSolar_no_position _ o H). cbn.
  rewrite H. repeat split.
Qed.

Lemma calculate_without_position_witness :
  calculateSolar initial offline = [ setError no_location_message ] /\
  filter is_fetch (calculateSolar initial offline) = [] /\
  step initial (calculate_click offline) =
    {| position := None; lat := lat initial; lng := lng initial;
       tilt := tilt initial; azimuth := azimuth initial;
       shading := shading initial;
       loading := loading initial;
       error := "Bitte waehlen Sie einen Standort auf der Karte.";
       solarData := solarData initial |}.
Proof.
  apply (calculate_without_position initial offline). reflexivity.
Defined.

(** ** C1: the parameters of the request *)

(** C1. A calculation with a position makes one request, to the PVGIS
    address followed by the serialised parameters; these are, in order,
    lat and lon (the position), peakpower 1, loss (the shading), angle (the
    tilt), aspect (the azimuth minus 180), outputformat json and
    pvtechchoice crystSi. For the whole numbers the sliders deliver
    (azimuth 0..360, tilt 0..90, shading 0..50) loss, angle and aspect are
    the decimal numerals of the shading, the tilt and the azimuth
    minus 180. *)
Theorem request_parameters st la lo o :
  position st = Some (la, lo) ->
  filter is_fetch (calculateSolar st o) =
    [ fetch_call (api_base ++
                  URLSearchParams.toString (request_params (la, lo) st)) ] /\
  request_params (la, lo) st =
    [ ("lat", Number_toString la);
      ("lon", Number_toString lo);
      ("peakpower", "1");
      ("loss", Number_toString (shading st));
      ("angle", Number_toString (tilt st));
      ("aspect", Number_toString (azimuth st - 180));
      ("outputformat", "json");
      ("pvtechchoice", "crystSi") ] /\
  (forall t a s : Z,
     tilt st = of_Z t -> azimuth st = of_Z a -> shading st = of_Z s ->
     (0 <= t <= 90)%Z -> (0 <= a <= 360)%Z -> (0 <= s <= 50)%Z ->
     request_params (la, lo) st =
       [ ("lat", Number_toString la);
         ("lon", Number_toString lo);
         ("peakpower", "1");
         ("loss", string_of_Z s);
         ("angle", string_of_Z t);
         ("aspect", string_of_Z (a - 180));
         ("outputformat", "json");
         ("pvtechchoice", "crystSi") ]).
Proof.
  intros H. split; [exact (calculateSolar_fetches_once st _ H o) |].
  split; [reflexivity |].
  intros t a s Ht Ha Hs Rt Ra Rs. unfold request_params.
  rewrite Ht, Ha, Hs. cbn [fst snd].
  rewrite (slider_numeral t Rt), (aspect_numeral a Ra).
  rewrite (slider_numeral s) by lia. reflexivity.
Qed.

Lemma request_parameters_witness :
  filter is_fetch (calculateSolar clicked offline) =
    [ fetch_call "https://re.jrc.ec.europa.eu/api/v5_2/PVcalc?lat=51.1657&lon=10.4515&peakpower=1&loss=0&angle=35&aspect=0&outputformat=json&pvtechchoice=crystSi" ] /\
  request_params (51.1657, 10.4515) clicked =
    [ ("lat", "51.1657"); ("lon", "10.4515"); ("peakpower", "1");
      ("loss", "0"); ("angle", "35"); ("aspect", "0");
      ("outputformat", "json"); ("pvtechchoice", "crystSi") ].
Proof.
  destruct (request_parameters clicked 51.1657 10.4515 offline)
    as [F [_ P]]; [vm_compute; reflexivity |].
  split.
  - rewrite F. vm_compute. reflexivity.
  - refine (eq_trans (P 35%Z 180%Z 0%Z _ _ _ _ _ _) _);
      try lia; vm_compute; reflexivity.
Defined.

(** A request with the sliders at tilt 20, azimuth 90 (east) and
    shading 15, in the southern hemisphere. *)
Example request_example :
  filter is_fetch
    (calculateSolar
       (steps initial [ map_click (-33.5, 151.25); tilt_change 20;
                        azimuth_change 90; shading_change 15 ])
       offline) =
    [ fetch_call "https://re.jrc.ec.europa.eu/api/v5_2/PVcalc?lat=-33.5&lon=151.25&peakpower=1&loss=15&angle=20&aspect=-90&outputformat=json&pvtechchoice=crystSi" ].
Proof. vm_compute. reflexivity. Qed.

(** ** C10: the message is reset first, the loading flag cleared last *)

(** C10. With a position selected, [calculateSolar] first sets the loading
    flag and empties the message, and only then makes its one network call;
    whatever state [st0] the effects are applied to (so whatever message an
    earlier calculation left), the message afterwards is the one of this
    calculation's outcome and the loading flag is false. *)
Theorem calculate_resets_message st pos o :
  position st = Some pos ->
  (exists rest,
     calculateSolar st o =
       setLoading true :: setError "" :: fetch_call (request_url pos st) :: rest /\
     filter is_fetch rest = []) /\
  (forall st0,
     error (run st0 (calculateSolar st o)) = final_message o /\
     loading (run st0 (calculateSolar st o)) = false).
Proof.
  intros H. destruct (outcome_cases o) as [[data ->] | [e F]].
  - split.
    + rewrite (calculateSolar_success st pos H). eexists.
      split; [reflexivity | by_checks].
    + intros st0. rewrite (run_success st pos H). split; reflexivity.
  - split.
    + rewrite (calculateSolar_failure st pos H o e F). eexists.
      split; reflexivity.
    + intros st0. rewrite (run_failure st pos H st0 o e F).
      rewrite (final_message_failure o e F). split; reflexivity.
Qed.

Lemma calculate_resets_message_witness :
  (exists rest,
     calculateSolar (step clicked (calculate_click (success (example_data 500))))
                    (success (example_data 1184)) =
       setLoading true :: setError "" ::
       fetch_call (request_url (51.1657, 10.4515)
                     (step clicked (calculate_click (success (example_data 500)))))
       :: rest /\
     filter is_fetch rest = []) /\
  (forall st0,
     error (run st0 (calculateSolar
                       (step clicked (calculate_click (success (example_data 500))))
                       (success (example_data 1184))))
       = final_message (success (example_data 1184)) /\
     loading (run st0 (calculateSolar
                         (step clicked (calculate_click (success (example_data 500))))
                         (success (example_data 1184))))
       = false).
Proof.
  apply (calculate_resets_message
           (step clicked (calculate_click (success (example_data 500))))
           (51.1657, 10.4515) (success (example_data 1184))).
  vm_compute. reflexivity.
Defined.

(** The warning of a first calculation is gone after a second one,
    successful or not. *)
Example message_does_not_persist :
  error (step clicked (calculate_click (success (example_data 500)))) =
    plausibility_warning 500 /\
  error (steps clicked [ calculate_click (success (example_data 500));
                         calculate_click (success (example_data 1184)) ]) = "" /\
  error (steps clicked [ calculate_click (success (example_data 500));
                         calculate_click offline ]) = fetch_failed_message.
Proof. repeat split; vm_compute; reflexivity. Qed.

(** ** C5: the plausibility check warns and does not fail *)

(** C5. After a successful calculation the result is stored with the yearly
    value and the monthly values of the response (twelve when the response
    has twelve) in both cases; when the yearly value is below 800 or above
    2500 the message is the warning, and when it is within [800, 2500] the
    message is empty. *)
Theorem plausibility_check st pos data :
  position st = Some pos ->
  let y := outputs_totals_fixed_E_y data in
  let st' := step st (calculate_click (success data)) in
  (exists d,
     solarData st' = Some d /\
     yearlyIrradiation d = y /\
     monthlyData d = map E_m (outputs_monthly_fixed data) /\
     List.length (monthlyData d) = List.length (outputs_monthly_fixed data)) /\
  loading st' = false /\
  ((y < 800) || (y > 2500) = true -> error st' = plausibility_warning y) /\
  (within 800 y 2500 = true -> error st' = "").
Proof.
  intros H y st'. unfold st', step, handle.
  rewrite (run_success st pos H). cbn [solarData loading error].
  split; [| split; [reflexivity | split]].
  - eexists. split; [reflexivity |]. cbn. rewrite List.length_map. repeat split.
  - intros K. fold y. unfold implausible. now rewrite K.
  - intros K. fold y. now rewrite (within_range_plausible y K).
Qed.

Lemma plausibility_check_witness :
  (exists d,
     solarData (step clicked (calculate_click (success (example_data 500))))
       = Some d /\
     yearlyIrradiation d = 500 /\
     monthlyData d = map E_m example_months /\
     List.length (monthlyData d) = 12%nat) /\
  loading (step clicked (calculate_click (success (example_data 500)))) = false /\
  error (step clicked (calculate_click (success (example_data 500)))) =
    "Warnung: Berechneter Wert (500 kWh/m2/Jahr) liegt ausserhalb des erwarteten Bereichs (800-2500)." /\
  error (step clicked (calculate_click (success (example_data 1500)))) = "".
Proof.
  destruct (plausibility_check clicked (51.1657, 10.4515) (example_data 500))
    as [D [L [W _]]]; [vm_compute; reflexivity |].
  destruct (plausibility_check clicked (51.1657, 10.4515) (example_data 1500))
    as [_ [_ [_ P]]]; [vm_compute; reflexivity |].
  split; [exact D |]. split; [exact L |]. split.
  - rewrite W; vm_compute; reflexivity.
  - apply P. vm_compute. reflexivity.
Defined.

(** A yearly value far above the range: the warning shows the rounded
    value. *)
Example implausible_above :
  error (step clicked (calculate_click (success (example_data 2500.5)))) =
    "Warnung: Berechneter Wert (2501 kWh/m2/Jahr) liegt ausserhalb des erwarteten Bereichs (800-2500)." /\
  error (step clicked (calculate_click (success (example_data 2500)))) = "" /\
  error (step clicked (calculate_click (success (example_data 800)))) = "" /\
  error (step clicked (calculate_click (success (example_data 799.9)))) =
    "Warnung: Berechneter Wert (800 kWh/m2/Jahr) liegt ausserhalb des erwarteten Bereichs (800-2500).".
Proof. repeat split; vm_compute; reflexivity. Qed.

(** ** C8: the seasonal check only logs *)

Lemma run_ignores_console st es :
  run st (filter (fun e => negb (is_console e)) es) = run st es.
Proof.
  revert st. induction es as [| e es IH]; intros st; [reflexivity |].
  destruct e; cbn; try apply IH.
Qed.

(** C8. In a successful calculation the hemisphere is read off the sign of
    the latitude (northern when it is above 0), the summer value is June's
    (index 5) in the north and December's (index 11) in the south, the
    winter value the other one; the notice is logged exactly when
    summer <= winter, and it is all the check does: without the console
    calls the effects are the same list whatever the check found, and so
    are the stored result, the message and the loading flag. *)
Theorem seasonal_check_only_logs st pos data :
  position st = Some pos ->
  let md := map E_m (outputs_monthly_fixed data) in
  let y := outputs_totals_fixed_E_y data in
  let es := calculateSolar st (success data) in
  let summer := if fst pos > 0 then nth 5 md nan else nth 11 md nan in
  let winter := if fst pos > 0 then nth 11 md nan else nth 5 md nan in
  (In (console_warn "Saisonale Verteilung unerwartet") es <->
   (summer <= winter) = true) /\
  filter (fun e => negb (is_console e)) es =
    ([ setLoading true; setError ""; fetch_call (request_url pos st) ] ++
     (if implausible y then [ setError (plausibility_warning y) ] else []) ++
     [ setSolarData (result_of pos st data); setLoading false ])%list /\
  run st es =
    {| position := position st; lat := lat st; lng := lng st;
       tilt := tilt st; azimuth := azimuth st; shading := shading st;
       loading := false;
       error := if implausible y then plausibility_warning y else "";
       solarData := Some (result_of pos st data) |}.
Proof.
  intros H md y es summer winter.
  assert (E : es = calculateSolar st (success data)) by reflexivity.
  rewrite (calculateSolar_success st pos H) in E.
  fold md y in E.
  change (summer <= winter) with (seasonal_anomaly pos md).
  split; [| split].
  - rewrite E. destruct (implausible y); destruct (seasonal_anomaly pos md);
      cbn; split; intros K; try reflexivity; try discriminate K;
      intuition (try discriminate; auto).
  - rewrite E. destruct (implausible y); destruct (seasonal_anomaly pos md);
      reflexivity.
  - subst es. apply (run_success st pos H).
Qed.

Lemma seasonal_check_only_logs_witness :
  (In (console_warn "Saisonale Verteilung unerwartet")
      (calculateSolar clicked (success southern_profile)) <->
   (26.5 <= 139.75) = true) /\
  filter (fun e => negb (is_console e))
    (calculateSolar clicked (success southern_profile)) =
    [ setLoading true; setError "";
      fetch_call (request_url (51.1657, 10.4515) clicked);
      setSolarData (result_of (51.1657, 10.4515) clicked southern_profile);
      setLoading false ] /\
  solarData (run clicked (calculateSolar clicked (success southern_profile))) =
    Some (result_of (51.1657, 10.4515) clicked southern_profile) /\
  error (run clicked (calculateSolar clicked (success southern_profile))) = "".
Proof.
  destruct (seasonal_check_only_logs clicked (51.1657, 10.4515) southern_profile)
    as [L [F R]]; [vm_compute; reflexivity |].
  split; [exact L |]. split; [exact F |].
  rewrite R. split; reflexivity.
Defined.

(** June below December at a northern position: the notice is logged
    between the request and the result; with the northern profile it is
    not. *)
Example seasonal_anomaly_logged :
  calculateSolar clicked (success southern_profile) =
    [ setLoading true; setError "";
      fetch_call (request_url (51.1657, 10.4515) clicked);
      console_warn "Saisonale Verteilung unerwartet";
      setSolarData (result_of (51.1657, 10.4515) clicked southern_profile);
      setLoading false ] /\
  filter is_console (calculateSolar clicked (success (example_data 1184))) = [].
Proof. split; vm_compute; reflexivity. Qed.

(** ** C2: the recommendation fields *)

(** C2. A successful calculation at latitude [L] stores [optimalTilt = |L|]
    and [optimalAzimuth = 180] when [L > 0], [0] otherwise, whatever the
    service returned (so whatever the plausibility and seasonal checks
    found); latitude 48 gives 48 and 180, latitude -33 gives 33 and 0. *)
Theorem recommendation_fields st L lon data :
  position st = Some (L, lon) ->
  (exists d,
     solarData (step st (calculate_click (success data))) = Some d /\
     optimalTilt d = Math_abs L /\
     optimalAzimuth d = (if L > 0 then 180 else 0)) /\
  (L = 48 -> Math_abs L = 48 /\ (if L > 0 then 180 else 0) = 180) /\
  (L = -33 -> Math_abs L = 33 /\ (if L > 0 then 180 else 0) = 0).
Proof.
  intros H. split; [| split].
  - unfold step, handle. rewrite (run_success st _ H).
    eexists. split; [reflexivity |]. split; reflexivity.
  - intros ->. split; reflexivity.
  - intros ->. split; reflexivity.
Qed.

Lemma recommendation_fields_witness :
  (exists d,
     solarData (steps initial [ map_click (48, 11.5);
                                calculate_click (success (example_data 500)) ])
       = Some d /\
     optimalTilt d = 48 /\ optimalAzimuth d = 180) /\
  (exists d,
     solarData (steps initial [ map_click (-33, 151.25);
                                calculate_click (success southern_profile) ])
       = Some d /\
     optimalTilt d = 33 /\ optimalAzimuth d = 0).
Proof.
  destruct (recommendation_fields (step initial (map_click (48, 11.5))) 48 11.5
              (example_data 500)) as [D _]; [vm_compute; reflexivity |].
  destruct (recommendation_fields (step initial (map_click (-33, 151.25)))
              (-33) 151.25 southern_profile) as [D' _];
    [vm_compute; reflexivity |].
  split; [exact D | exact D'].
Defined.

(** On the equator, and for the scenario of the specification (51.1657
    north, a yearly value of 1184, no message). *)
Example recommendation_examples :
  option_map (fun d => (optimalTilt d, optimalAzimuth d))
    (solarData (steps initial [ map_click (0, 11.5);
                                calculate_click (success (example_data 1184)) ]))
    = Some (0, 0) /\
  option_map (fun d => (toFixed (optimalTilt d) 2, optimalAzimuth d))
    (solarData calculated) = Some ("51.17", 180) /\
  error calculated = "".
Proof. repeat split; vm_compute; reflexivity. Qed.

(** ** C6: what a failed calculation does to the stored result *)

(** C6, as the code has it. A calculation that fails (no position, a
    rejected request, a response that is not [ok], a body that cannot be
    read) leaves the stored result as it was, so absent when it was absent
    and the earlier result otherwise; a calculation that succeeds stores the
    record built from its own position, panel and response, whatever was
    stored before; and in every state reached from the initial one a stored
    result means that a calculation succeeded earlier. *)
Theorem failed_calculation_keeps_result :
  (forall st st0 o,
     succeeds st o = false ->
     solarData (run st0 (calculateSolar st o)) = solarData st0) /\
  (forall st st0 pos data,
     position st = Some pos ->
     succeeds st (success data) = true /\
     solarData (run st0 (calculateSolar st (success data))) =
       Some {| yearlyIrradiation := outputs_totals_fixed_E_y data;
               monthlyData := map E_m (outputs_monthly_fixed data);
               optimalTilt := Math_abs (fst pos);
               optimalAzimuth := if fst pos > 0 then 180 else 0;
               loss := shading st |}) /\
  (forall evs,
     solarData (steps initial evs) <> None ->
     exists evs1 o evs2,
       evs = (evs1 ++ calculate_click o :: evs2)%list /\
       succeeds (steps initial evs1) o = true).
Proof.
  split; [| split].
  - exact failed_run_keeps_result.
  - intros st st0 pos data H. split.
    + unfold succeeds. now rewrite H.
    + now rewrite (run_success st pos H).
  - exact result_needs_success.
Qed.

Lemma failed_calculation_keeps_result_witness :
  solarData (step initial (calculate_click offline)) = None /\
  solarData (step clicked (calculate_click offline)) = None /\
  solarData (step calculated (calculate_click offline)) = solarData calculated.
Proof.
  destruct failed_calculation_keeps_result as [K _].
  split; [| split].
  - apply (K initial initial offline). reflexivity.
  - apply (K clicked clicked offline). vm_compute. reflexivity.
  - apply (K calculated calculated offline). vm_compute. reflexivity.
Defined.

(** C6 as stated fails: after a successful calculation, a calculation
    whose request is rejected fails, and the earlier result is still
    stored. *)
Lemma failed_calculation_result_retained :
  succeeds calculated offline = false /\
  solarData (step calculated (calculate_click offline)) =
    Some {| yearlyIrradiation := 1184;
            monthlyData := map E_m example_months;
            optimalTilt := 51.1657;
            optimalAzimuth := 180;
            loss := 0 |} /\
  solarData (step calculated (calculate_click offline)) <> None.
Proof.
  split; [vm_compute; reflexivity |].
  split; [vm_compute; reflexivity | vm_compute; discriminate].
Qed.

(** The same after a response that is not [ok] and after a body that
    cannot be read. *)
Example other_failures_retain_result :
  solarData (step calculated
               (calculate_click
                  (inr {| ok := false; json := inl (Rejection "no body") |})))
    = solarData calculated /\
  solarData (step calculated
               (calculate_click
                  (inr {| ok := true; json := inl (Rejection "Unexpected token") |})))
    = solarData calculated /\
  solarData calculated <> None.
Proof.
  split; [vm_compute; reflexivity |].
  split; [vm_compute; reflexivity | vm_compute; discriminate].
Qed.

(** * The result panel *)

(** ** C7: the tilt suggestion *)

(** C7, as the code has it. The suggestion line is rendered exactly when
    the chosen tilt differs from the rounded optimal tilt (for a whole
    number of degrees, as the slider delivers, the chosen tilt is its own
    rounding), and the figure in it is the absolute difference between the
    chosen tilt and the optimal tilt itself, not its rounding: with tilt 35
    and an optimal tilt that rounds to 35 there is no line, and with tilt 20
    and an optimal tilt of 48 the figure is 28. *)
Theorem tilt_suggestion st d :
  whole (tilt st) ->
  suggestion_shown st d =
    negb (Math_round (tilt st) === Math_round (optimalTilt d)) /\
  improvement_figure st d = Math_abs (tilt st - optimalTilt d) /\
  (solarData st = Some d ->
   suggestion_line st =
     if suggestion_shown st d
     then Some ("Anpassung des Neigungswinkels koennte den Ertrag um ca. " ++
                Number_toString (improvement_figure st d) ++ "% verbessern.")
     else None) /\
  (tilt st = 35 -> Math_round (optimalTilt d) = 35 ->
   suggestion_shown st d = false) /\
  (tilt st = 20 -> optimalTilt d = 48 ->
   suggestion_shown st d = true /\ improvement_figure st d = 28).
Proof.
  unfold whole. intros I.
  unfold suggestion_shown, improvement_figure, suggestion_line, strict_neq.
  rewrite I. split; [reflexivity |]. split; [reflexivity |].
  split; [| split].
  - intros ->. reflexivity.
  - intros -> ->. reflexivity.
  - intros -> ->. split; reflexivity.
Qed.

Lemma tilt_suggestion_witness :
  suggestion_line
    (steps initial [ map_click (35.4, 11.5);
                     calculate_click (success (example_data 1184)) ]) = None /\
  suggestion_line
    (steps initial [ map_click (48, 11.5); tilt_change 20;
                     calculate_click (success (example_data 1184)) ]) =
    Some "Anpassung des Neigungswinkels koennte den Ertrag um ca. 28% verbessern.".
Proof.
  destruct (tilt_suggestion
              (steps initial [ map_click (35.4, 11.5);
                               calculate_click (success (example_data 1184)) ])
              (result_of (35.4, 11.5) initial (example_data 1184)))
    as [_ [_ [L [N _]]]]; [vm_compute; reflexivity |].
  destruct (tilt_suggestion
              (steps initial [ map_click (48, 11.5); tilt_change 20;
                               calculate_click (success (example_data 1184)) ])
              (result_of (48, 11.5) initial (example_data 1184)))
    as [_ [_ [L' [_ S]]]]; [vm_compute; reflexivity |].
  split.
  - rewrite L by (vm_compute; reflexivity).
    rewrite N by (vm_compute; reflexivity). reflexivity.
  - rewrite L' by (vm_compute; reflexivity).
    destruct S as [S F]; [vm_compute; reflexivity | vm_compute; reflexivity |].
    rewrite S, F. vm_compute. reflexivity.
Defined.

(** C7 as stated fails: the optimal tilt 48.25 rounds to 48 and the chosen
    tilt is 20, yet the figure in the line is 28.25, not 28. *)
Lemma tilt_suggestion_figure_unrounded :
  tilt tilted_session = 20 /\
  option_map optimalTilt (solarData tilted_session) = Some 48.25 /\
  Math_round 48.25 = 48 /\
  suggestion_line tilted_session =
    Some "Anpassung des Neigungswinkels koennte den Ertrag um ca. 28.25% verbessern." /\
  option_map (improvement_figure tilted_session) (solarData tilted_session)
    = Some 28.25 /\
  option_map (improvement_figure tilted_session) (solarData tilted_session)
    <> Some 28.
Proof.
  repeat split; try (vm_compute; reflexivity).
  vm_compute. intros K.
  apply (f_equal (fun r => match r with
                           | Some x => (x =? 28)%float
                           | None => true
                           end)) in K.
  vm_compute in K. discriminate K.
Qed.

(** The scenario of the specification: at 51.1657 north with the default
    tilt 35 the line is shown, with the unrounded difference. *)
Example tilt_suggestion_scenario :
  suggestion_line calculated =
    Some "Anpassung des Neigungswinkels koennte den Ertrag um ca. 16.1657% verbessern.".
Proof. vm_compute. reflexivity. Qed.

(** * Further properties of the component *)

(** ** What the handlers leave alone *)

(** [calculateSolar] never touches the position, the text fields or the
    panel configuration. *)
Lemma calculateSolar_frame st st0 o :
  position (run st0 (calculateSolar st o)) = position st0 /\
  lat (run st0 (calculateSolar st o)) = lat st0 /\
  lng (run st0 (calculateSolar st o)) = lng st0 /\
  tilt (run st0 (calculateSolar st o)) = tilt st0 /\
  azimuth (run st0 (calculateSolar st o)) = azimuth st0 /\
  shading (run st0 (calculateSolar st o)) = shading st0.
Proof.
  destruct (position st) as [pos |] eqn:H.
  - destruct (outcome_cases o) as [[data ->] | [e F]].
    + rewrite (run_success st pos H). repeat split.
    + rewrite (run_failure st pos H st0 o e F). repeat split.
  - rewrite (calculateSolar_no_position st o H). repeat split.
Qed.

Lemma step_keeps_position st ev :
  position st <> None -> position (step st ev) <> None.
Proof.
  intros H.
  destruct ev as [pos | v | v | | v | v | v | o]; try exact H.
  - discriminate.
  - unfold step, handle. rewrite handleLatLngInput_valid.
    destruct (valid_entry (lat st) (lng st)); [discriminate | exact H].
  - unfold step, handle.
    now rewrite (proj1 (calculateSolar_frame st st o)).
Qed.

Lemma succeeds_inv st o :
  succeeds st o = true ->
  exists pos data, position st = Some pos /\ o = success data.
Proof.
  unfold succeeds. destruct (position st) as [pos |]; [| discriminate].
  destruct o as [e | [[] [e | data]]]; try discriminate.
  intros _. now exists pos, data.
Qed.

(** X1. Once a position is selected no event clears it: from any state
    with a position, every sequence of clicks, entries, slider moves and
    calculations (successful or not) ends in a state with a position, so
    the marker stays on the map and the button never goes back to being
    disabled for want of a location. *)
Theorem position_never_cleared st evs :
  position st <> None ->
  position (steps st evs) <> None /\
  LocationMarker (position (steps st evs)) <> None /\
  button_disabled (steps st evs) = loading (steps st evs).
Proof.
  revert st. induction evs as [| ev evs IH]; intros st H.
  - cbn. unfold LocationMarker, button_disabled.
    destruct (position st); [| contradiction].
    repeat split; try discriminate. now rewrite orb_false_r.
  - cbn. apply IH. now apply step_keeps_position.
Qed.

Lemma position_never_cleared_witness :
  position (steps clicked [ lat_change "abc"; input_blur;
                            calculate_click offline; shading_change 10 ])
    <> None /\
  LocationMarker
    (position (steps clicked [ lat_change "abc"; input_blur;
                               calculate_click offline; shading_change 10 ]))
    <> None /\
  button_disabled (steps clicked [ lat_change "abc"; input_blur;
                                   calculate_click offline; shading_change 10 ])
    = loading (steps clicked [ lat_change "abc"; input_blur;
                               calculate_click offline; shading_change 10 ]).
Proof.
  apply (position_never_cleared clicked).
  vm_compute. discriminate.
Defined.

(** X2. The stored result is stale-proof and sticky: a map click, a text
    entry, a blur or a slider move leaves it exactly as it was (the panel
    keeps showing the result of the old position and panel settings), and
    no sequence of events at all, calculations included, ever removes
    a stored result. *)
Theorem stored_result_outlives_changes st evs :
  (forallb (fun ev => negb (is_calculation ev)) evs = true ->
   solarData (steps st evs) = solarData st) /\
  (solarData st <> None -> solarData (steps st evs) <> None).
Proof.
  revert st. induction evs as [| ev evs IH]; intros st.
  - split; [reflexivity | auto].
  - cbn [steps fold_left forallb]. fold (steps (step st ev) evs).
    destruct (IH (step st ev)) as [IH1 IH2]. split.
    + intros K. apply andb_prop in K. destruct K as [K1 K2].
      rewrite (IH1 K2).
      destruct (step_solarData st ev) as [E | [o [-> _]]];
        [exact E | discriminate K1].
    + intros K. apply IH2.
      destruct (step_solarData st ev) as [E | [o [-> S]]].
      * now rewrite E.
      * destruct (succeeds_inv st o S) as [pos [data [P ->]]].
        unfold step, handle. rewrite (run_success st pos P). discriminate.
Qed.

Lemma stored_result_outlives_changes_witness :
  solarData (steps calculated [ map_click (-33.5, 151.25); tilt_change 10;
                                lat_change "12"; input_blur ])
    = solarData calculated /\
  solarData (steps calculated [ map_click (-33.5, 151.25);
                                calculate_click offline ]) <> None.
Proof.
  split.
  - apply (proj1 (stored_result_outlives_changes calculated
                    [ map_click (-33.5, 151.25); tilt_change 10;
                      lat_change "12"; input_blur ])).
    reflexivity.
  - apply (proj2 (stored_result_outlives_changes calculated
                    [ map_click (-33.5, 151.25); calculate_click offline ])).
    vm_compute. discriminate.
Defined.

(** ** States reached from the initial one *)

Lemma reached_result st ev d :
  solarData (step st ev) = Some d ->
  solarData st = Some d \/
  (exists pos data, position st = Some pos /\ d = result_of pos st data).
Proof.
  intros H. destruct (step_solarData st ev) as [E | [o [-> S]]].
  - left. now rewrite <- E.
  - right. destruct (succeeds_inv st o S) as [pos [data [P ->]]].
    exists pos, data. split; [exact P |].
    unfold step, handle in H. rewrite (run_success st pos P) in H.
    cbn in H. congruence.
Qed.

(** X3. In every state reached from the initial one, a stored result
    comes with a selected position: whenever the result panel is rendered
    the marker is on the map, the button is not disabled for want of a
    location, and the latitude in the panel's text is present (the
    optional chaining on [position] never yields [undefined] there). *)
Theorem panel_implies_position evs :
  panel_shown (steps initial evs) = true ->
  position (steps initial evs) <> None /\
  LocationMarker (position (steps initial evs)) <> None /\
  location_text (steps initial evs) <> None.
Proof.
  assert (K : panel_shown (steps initial evs) = true ->
              position (steps initial evs) <> None).
  { induction evs as [| ev evs IH] using rev_ind; [discriminate |].
    rewrite steps_app. cbn [steps fold_left].
    fold (steps initial evs). unfold panel_shown in *.
    destruct (solarData (step (steps initial evs) ev)) as [d |] eqn:E;
      [| discriminate].
    intros _. apply step_keeps_position.
    destruct (reached_result _ _ _ E) as [R | [pos [data [P _]]]].
    - apply IH. now rewrite R.
    - rewrite P. discriminate. }
  intros H. specialize (K H).
  unfold LocationMarker, location_text.
  destruct (position (steps initial evs)); [| contradiction].
  repeat split; discriminate.
Qed.

Lemma panel_implies_position_witness :
  position (steps initial [ map_click (51.1657, 10.4515);
                            calculate_click (success (example_data 1184));
                            lat_change ""; input_blur ]) <> None /\
  LocationMarker
    (position (steps initial [ map_click (51.1657, 10.4515);
                               calculate_click (success (example_data 1184));
                               lat_change ""; input_blur ])) <> None /\
  location_text (steps initial [ map_click (51.1657, 10.4515);
                                 calculate_click (success (example_data 1184));
                                 lat_change ""; input_blur ]) <> None.
Proof.
  apply (panel_implies_position
           [ map_click (51.1657, 10.4515);
             calculate_click (success (example_data 1184));
             lat_change ""; input_blur ]).
  vm_compute. reflexivity.
Defined.

Lemma calculation_end st pos o :
  position st = Some pos ->
  forall st0,
    error (run st0 (calculateSolar st o)) = final_message o /\
    loading (run st0 (calculateSolar st o)) = false.
Proof.
  intros H st0. destruct (outcome_cases o) as [[data ->] | [e F]].
  - rewrite (run_success st pos H). split; reflexivity.
  - rewrite (run_failure st pos H st0 o e F).
    rewrite (final_message_failure o e F). split; reflexivity.
Qed.




(** The guard is taken only by a call the button does not allow. *)
Example no_location_message_needs_disabled_button :
  through_button initial [ calculate_click offline ] = false /\
  error_box (steps initial [ calculate_click offline ]) =
    Some "Bitte waehlen Sie einen Standort auf der Karte.".
Proof. split; reflexivity. Qed.

(** ** The stored recommendation *)

(** An absolute value is never below zero. *)
Lemma abs_not_negative (x : number) : (Math_abs x < 0) = false.
Proof.
  unfold JS.lt, Math_abs. rewrite ltb_spec, abs_spec.
  replace (Prim2SF 0) with (S754_zero false) by (vm_compute; reflexivity).
  destruct (Prim2SF x) as [s | s | | s m e]; reflexivity.
Qed.

Lemma result_of_recommendation pos st data :
  (optimalAzimuth (result_of pos st data) = 180 \/
   optimalAzimuth (result_of pos st data) = 0) /\
  (optimalTilt (result_of pos st data) < 0) = false.
Proof.
  split; [| apply abs_not_negative].
  unfold result_of. cbn [optimalAzimuth].
  destruct (fst pos > 0); [left | right]; reflexivity.
Qed.

(** X5. In every state reached from the initial one, the stored
    recommendation is well formed: the optimal azimuth is 180 or 0, so the
    label rendered from it ("Sued (180 Grad)" when it is 180, "Nord (0
    Grad)" otherwise) always names the stored azimuth, and the optimal tilt
    is never below zero. *)
Theorem stored_recommendation_well_formed evs d :
  solarData (steps initial evs) = Some d ->
  (optimalAzimuth d = 180 /\ orientation_label d = "Sued (180 Grad)" \/
   optimalAzimuth d = 0 /\ orientation_label d = "Nord (0 Grad)") /\
  (optimalTilt d < 0) = false.
Proof.
  intros H.
  assert (K : (optimalAzimuth d = 180 \/ optimalAzimuth d = 0) /\
              (optimalTilt d < 0) = false).
  { revert d H. induction evs as [| ev evs IH] using rev_ind; intros d H.
    - discriminate H.
    - rewrite steps_app in H. cbn [steps fold_left] in H.
      destruct (reached_result _ _ _ H) as [R | [pos [data [_ ->]]]].
      + apply IH. exact R.
      + apply result_of_recommendation. }
  destruct K as [[A | A] T]; (split; [| exact T]).
  - left. unfold orientation_label. rewrite A. split; reflexivity.
  - right. unfold orientation_label. rewrite A. split; reflexivity.
Qed.

Lemma stored_recommendation_well_formed_witness :
  (optimalAzimuth (result_of (-33.5, 151.25)
                     (step initial (map_click (-33.5, 151.25))) southern_profile)
     = 0 /\
   orientation_label (result_of (-33.5, 151.25)
                        (step initial (map_click (-33.5, 151.25)))
                        southern_profile)
     = "Nord (0 Grad)") /\
  (optimalTilt (result_of (-33.5, 151.25)
                  (step initial (map_click (-33.5, 151.25))) southern_profile)
   < 0) = false.
Proof.
  destruct (stored_recommendation_well_formed
              [ map_click (-33.5, 151.25);
                calculate_click (success southern_profile) ]
              (result_of (-33.5, 151.25)
                 (step initial (map_click (-33.5, 151.25))) southern_profile))
    as [[[A L] | [A L]] T]; [vm_compute; reflexivity | | ].
  - exfalso. apply (f_equal (fun x => (x =? 0)%float)) in A.
    vm_compute in A. discriminate A.
  - split; [split |]; assumption.
Defined.

(** ** The chart *)

Lemma chart_bars_some ms : forall i d,
  chart_bars ms i d <> None <->
  (ms = [] \/ (i + List.length ms <= List.length (monthlyData d))%nat).
Proof.
  induction ms as [| month rest IH]; intros i d.
  - cbn. split; [auto | discriminate].
  - cbn [chart_bars List.length].
    destruct (nth_error (monthlyData d) i) as [value |] eqn:N.
    + assert (L : (i < List.length (monthlyData d))%nat)
        by (apply nth_error_Some; congruence).
      specialize (IH (S i) d).
      destruct (chart_bars rest (S i) d) as [bars |].
      * split; [| discriminate]. intros _. right.
        destruct IH as [IH _].
        destruct (IH ltac:(discriminate)) as [-> | K]; cbn; lia.
      * split; [intros K; now contradiction K |].
        intros [K | K]; [discriminate K |].
        exfalso. destruct IH as [_ IH]. apply IH; [| reflexivity].
        right. lia.
    + assert (L : (List.length (monthlyData d) <= i)%nat)
        by (apply nth_error_None; exact N).
      split; [intros K; now contradiction K |].
      intros [K | K]; [discriminate K | lia].
Qed.

Lemma chart_bars_spec ms : forall i d bars,
  chart_bars ms i d = Some bars ->
  map bar_month bars = ms /\
  forall k b, nth_error bars k = Some b ->
    exists value,
      nth_error (monthlyData d) (i + k) = Some value /\
      bar_height b =
        Number_toString (value / Math_max (monthlyData d) * 100) ++ "%" /\
      bar_title b =
        bar_month b ++ ": " ++ toFixed value 1 ++ " kWh/m2".
Proof.
  induction ms as [| month rest IH]; intros i d bars H.
  - cbn in H. injection H as <-. split; [reflexivity |].
    intros k b K. destruct k; discriminate K.
  - cbn [chart_bars] in H.
    destruct (nth_error (monthlyData d) i) as [value |] eqn:N;
      [| discriminate H].
    destruct (chart_bars rest (S i) d) as [bs |] eqn:C; [| discriminate H].
    injection H as <-. destruct (IH _ _ _ C) as [M B]. split.
    + cbn. now rewrite M.
    + intros [| k] b K.
      * cbn in K. injection K as <-. exists value.
        rewrite Nat.add_0_r. split; [exact N |]. split; reflexivity.
      * cbn in K. destruct (B k b K) as [v [V R]]. exists v.
        rewrite Nat.add_succ_r. split; [exact V | exact R].
Qed.

(** X6. The chart of the result panel can only be rendered when the
    result has at least twelve monthly values: with fewer, reading the
    missing month gives [undefined] and [value.toFixed(1)] throws. When it
    is rendered it has exactly the twelve bars Jan to Dez in order, bar [k]
    built from the [k]-th monthly value: its height is that value divided
    by the maximum of all monthly values (also those after the twelfth),
    times 100, and its title shows the value with one decimal. *)
Theorem chart_needs_twelve_months d :
  (chart d <> None <-> (12 <= List.length (monthlyData d))%nat) /\
  (forall bars,
     chart d = Some bars ->
     map bar_month bars = months /\
     List.length bars = 12%nat /\
     forall k b, nth_error bars k = Some b ->
       exists value,
         nth_error (monthlyData d) k = Some value /\
         bar_height b =
           Number_toString (value / Math_max (monthlyData d) * 100) ++ "%" /\
         bar_title b = bar_month b ++ ": " ++ toFixed value 1 ++ " kWh/m2").
Proof.
  split.
  - unfold chart. rewrite (chart_bars_some months 0 d). cbn.
    split; [intros [K | K]; [discriminate K | exact K] | auto].
  - intros bars H. destruct (chart_bars_spec months 0 d bars H) as [M B].
    split; [exact M |]. split.
    + rewrite <- (List.length_map bar_month), M. reflexivity.
    + exact B.
Qed.

Lemma chart_needs_twelve_months_witness :
  chart (result_of (51.1657, 10.4515) clicked (example_data 1184)) <> None /\
  chart (result_of (51.1657, 10.4515) clicked
           {| outputs_monthly_fixed := firstn 11 example_months;
              outputs_totals_fixed_E_y := 1184 |}) = None.
Proof.
  split.
  - apply (proj1 (chart_needs_twelve_months
                    (result_of (51.1657, 10.4515) clicked (example_data 1184)))).
    cbn. lia.
  - destruct (chart (result_of (51.1657, 10.4515) clicked
                       {| outputs_monthly_fixed := firstn 11 example_months;
                          outputs_totals_fixed_E_y := 1184 |})) eqn:C;
      [| reflexivity].
    exfalso.
    assert (K : (12 <= 11)%nat);
      [| lia].
    apply (proj1 (chart_needs_twelve_months
                    (result_of (51.1657, 10.4515) clicked
                       {| outputs_monthly_fixed := firstn 11 example_months;
                          outputs_totals_fixed_E_y := 1184 |}))).
    rewrite C. discriminate.
Defined.

(** ** The query string *)

Lemma count_app c a b : count c (a ++ b) = (count c a + count c b)%nat.
Proof.
  induction a as [| c' a IH]; [reflexivity |].
  cbn [append count]. rewrite IH. lia.
Qed.

(** No code unit is encoded into a separator of the URL. *)
Lemma encode_unit_no_separator u :
  count "&" (URLSearchParams.encode_unit u) = O /\
  count "=" (URLSearchParams.encode_unit u) = O /\
  count "?" (URLSearchParams.encode_unit u) = O /\
  count "#" (URLSearchParams.encode_unit u) = O /\
  count " " (URLSearchParams.encode_unit u) = O.
Proof.
  destruct u as [[] [] [] [] [] [] [] []]; repeat split; reflexivity.
Qed.

Lemma encode_no_separator s :
  count "&" (URLSearchParams.encode s) = O /\
  count "=" (URLSearchParams.encode s) = O /\
  count "?" (URLSearchParams.encode s) = O /\
  count "#" (URLSearchParams.encode s) = O /\
  count " " (URLSearchParams.encode s) = O.
Proof.
  induction s as [| u s [A [B [C [D E]]]]]; [repeat split |].
  cbn [URLSearchParams.encode]. rewrite !count_app, A, B, C, D, E.
  destruct (encode_unit_no_separator u) as [A' [B' [C' [D' E']]]].
  rewrite A', B', C', D', E'. repeat split.
Qed.

Lemma request_url_separators pos st :
  count "&" (request_url pos st) = 7%nat /\
  count "=" (request_url pos st) = 8%nat /\
  count "?" (request_url pos st) = 1%nat /\
  count "#" (request_url pos st) = O /\
  count " " (request_url pos st) = O.
Proof.
  cbv [request_url request_params URLSearchParams.toString].
  rewrite !count_app.
  repeat match goal with
         | |- context [count ?c (URLSearchParams.encode ?s)] =>
             let K := fresh in
             pose proof (encode_no_separator s) as K;
             destruct K as [? [? [? [? ?]]]];
             replace (count c (URLSearchParams.encode s)) with O
               by (symmetry; assumption)
         end.
  repeat split; reflexivity.
Qed.

(** X7. The request of a calculation is always a well-formed query of eight
    parameters, whatever numbers the position and the panel hold (NaN,
    infinities, exponents with a plus sign): the address ends in the one
    question mark, the parameters are joined by seven ampersands, each has
    its one equals sign, and the URL contains no space and no fragment
    sign. *)
Theorem request_is_well_formed st pos o :
  position st = Some pos ->
  exists url,
    filter is_fetch (calculateSolar st o) = [ fetch_call url ] /\
    prefix "https://re.jrc.ec.europa.eu/api/v5_2/PVcalc?" url = true /\
    count "&" url = 7%nat /\
    count "=" url = 8%nat /\
    count "?" url = 1%nat /\
    count "#" url = O /\
    count " " url = O.
Proof.
  intros H. exists (request_url pos st).
  split; [exact (calculateSolar_fetches_once st pos H o) |].
  split; [| exact (request_url_separators pos st)].
  unfold request_url, api_base. reflexivity.
Qed.

Lemma request_is_well_formed_witness :
  exists url,
    filter is_fetch
      (calculateSolar
         (steps initial [ map_click (1e21, -0.0000001); tilt_change nan ])
         offline) = [ fetch_call url ] /\
    prefix "https://re.jrc.ec.europa.eu/api/v5_2/PVcalc?" url = true /\
    count "&" url = 7%nat /\
    count "=" url = 8%nat /\
    count "?" url = 1%nat /\
    count "#" url = O /\
    count " " url = O.
Proof.
  apply (request_is_well_formed
           (steps initial [ map_click (1e21, -0.0000001); tilt_change nan ])
           (1e21, -0.0000001) offline).
  vm_compute. reflexivity.
Defined.

(** The plus sign of an exponent is percent-encoded. *)
Example request_with_exponents :
  filter is_fetch
    (calculateSolar
       (steps initial [ map_click (1e21, -0.0000001); tilt_change nan ])
       offline) =
    [ fetch_call "https://re.jrc.ec.europa.eu/api/v5_2/PVcalc?lat=1e%2B21&lon=-1e-7&peakpower=1&loss=0&angle=NaN&aspect=0&outputformat=json&pvtechchoice=crystSi" ].
Proof. vm_compute. reflexivity. Qed.

(** ** The sliders *)

Lemma sliders_checked : forallb slider_ok (Z_range 0 361) = true.
Proof. vm_compute. reflexivity. Qed.

Lemma slider_value z :
  (0 <= z <= 360)%Z ->
  StringToNumber (string_of_Z z) = of_Z z /\
  Math_round (of_Z z) = of_Z z /\
  Number_toString (of_Z z) = string_of_Z z.
Proof.
  intros H.
  assert (K : slider_ok z = true).
  { apply (proj1 (forallb_forall slider_ok _) sliders_checked).
    apply in_Z_range. lia. }
  unfold slider_ok in K.
  apply andb_prop in K. destruct K as [K K3].
  apply andb_prop in K. destruct K as [K1 K2].
  apply FloatAxioms.Leibniz.eqb_spec in K1.
  apply FloatAxioms.Leibniz.eqb_spec in K2.
  apply String.eqb_eq in K3.
  rewrite K1 in K2, K3. repeat split; assumption.
Qed.

(** X8. What a slider shows is what is sent. For every whole position of
    the three range inputs (tilt 0..90, azimuth 0..360, shading 0..50),
    delivered as its decimal numeral, the handler stores exactly that whole
    number, and a request built from the resulting state carries the
    numerals of the shading and the tilt back as [loss] and [angle], and
    the numeral of the azimuth minus 180 as [aspect]. *)
Theorem sliders_reach_request st pos (t a s : Z) :
  (0 <= t <= 90)%Z -> (0 <= a <= 360)%Z -> (0 <= s <= 50)%Z ->
  let st' := run st (onTiltChange (string_of_Z t) ++
                     onAzimuthChange (string_of_Z a) ++
                     onShadingChange (string_of_Z s))%list in
  tilt st' = of_Z t /\ azimuth st' = of_Z a /\ shading st' = of_Z s /\
  whole (tilt st') /\ whole (azimuth st') /\ whole (shading st') /\
  request_params pos st' =
    [ ("lat", Number_toString (fst pos));
      ("lon", Number_toString (snd pos));
      ("peakpower", "1");
      ("loss", string_of_Z s);
      ("angle", string_of_Z t);
      ("aspect", string_of_Z (a - 180));
      ("outputformat", "json");
      ("pvtechchoice", "crystSi") ].
Proof.
  intros Rt Ra Rs st'.
  destruct (slider_value t) as [T1 [T2 T3]]; [lia |].
  destruct (slider_value a) as [A1 [A2 _]]; [lia |].
  destruct (slider_value s) as [S1 [S2 S3]]; [lia |].
  assert (Et : tilt st' = of_Z t) by (cbn; exact T1).
  assert (Ea : azimuth st' = of_Z a) by (cbn; exact A1).
  assert (Es : shading st' = of_Z s) by (cbn; exact S1).
  unfold whole. rewrite Et, Ea, Es.
  repeat (split; [assumption || reflexivity |]).
  unfold request_params. rewrite Et, Ea, Es, T3, S3.
  now rewrite (aspect_numeral a Ra).
Qed.

Lemma sliders_reach_request_witness :
  request_params (48.25, 11.5)
    (run initial (onTiltChange "20" ++ onAzimuthChange "90" ++
                  onShadingChange "15")%list) =
    [ ("lat", "48.25"); ("lon", "11.5"); ("peakpower", "1");
      ("loss", "15"); ("angle", "20"); ("aspect", "-90");
      ("outputformat", "json"); ("pvtechchoice", "crystSi") ].
Proof.
  destruct (sliders_reach_request initial (48.25, 11.5) 20%Z 90%Z 15%Z)
    as [_ [_ [_ [_ [_ [_ R]]]]]]; try lia.
  refine (eq_trans R _). vm_compute. reflexivity.
Defined.

(** What [Number] makes of other strings: the empty string is 0, a string
    that is not a numeral as a whole is NaN. *)
Example slider_odd_values :
  run initial (onTiltChange "") = run initial [ setTilt 0 ] /\
  isNaN (tilt (run initial (onTiltChange "20 Grad"))) = true /\
  tilt (run initial (onTiltChange " 0x1e ")) = 30 /\
  tilt (run initial (onTiltChange "12.5")) = 12.5.
Proof. repeat split; vm_compute; reflexivity. Qed.

(** ** The order of floats *)

Ltac order_cases :=
  repeat match goal with
         | |- context [Pos.compare_cont Eq ?a ?b] =>
             change (Pos.compare_cont Eq a b) with (Pos.compare a b)
         | |- context [Z.compare ?a ?b] => destruct (Z.compare_spec a b)
         | |- context [Pos.compare ?a ?b] => destruct (Pos.compare_spec a b)
         end;
  cbn; intros; subst; try reflexivity; try discriminate; try lia.

Lemma SFcompare_refl x : x <> S754_nan -> SFcompare x x = Some Eq.
Proof.
  destruct x as [s | s | | s m e]; intros H; try destruct s;
    try reflexivity; try congruence; cbn;
    rewrite Z.compare_refl, Pos.compare_cont_refl; reflexivity.
Qed.

Lemma SFleb_trans x y z :
  SFleb x y = true -> SFleb y z = true -> SFleb x z = true.
Proof.
  unfold SFleb, SFcompare.
  destruct x as [sx | sx | | sx mx ex], y as [sy | sy | | sy my ey],
           z as [sz | sz | | sz mz ez];
    try destruct sx; try destruct sy; try destruct sz;
    try (intros; reflexivity); try (intros; discriminate);
    order_cases.
Qed.

Lemma isNaN_spec (x : number) :
  isNaN x = match Prim2SF x with S754_nan => true | _ => false end.
Proof.
  unfold isNaN, is_nan. rewrite eqb_spec. unfold SFeqb.
  destruct (Prim2SF x) as [s | s | | s m e] eqn:E; try reflexivity;
    rewrite SFcompare_refl; try reflexivity; discriminate.
Qed.

Lemma not_NaN (x : number) : isNaN x = false -> Prim2SF x <> S754_nan.
Proof.
  rewrite isNaN_spec. intros H K. rewrite K in H. discriminate H.
Qed.

Lemma le_refl (x : number) : isNaN x = false -> (x <= x) = true.
Proof.
  intros H. unfold JS.le. rewrite leb_spec. unfold SFleb.
  now rewrite (SFcompare_refl _ (not_NaN x H)).
Qed.

Lemma le_trans (x y z : number) :
  (x <= y) = true -> (y <= z) = true -> (x <= z) = true.
Proof.
  unfold JS.le. rewrite !leb_spec. apply SFleb_trans.
Qed.

Lemma gt_le (x y : number) : (x > y) = true -> (y <= x) = true.
Proof.
  unfold JS.gt, JS.le. rewrite ltb_spec, leb_spec. unfold SFltb, SFleb.
  destruct (SFcompare (Prim2SF y) (Prim2SF x)) as [[] |];
    try discriminate; reflexivity.
Qed.

Lemma not_gt_le (x y : number) :
  isNaN x = false -> isNaN y = false -> (x > y) = false -> (x <= y) = true.
Proof.
  intros Hx Hy. unfold JS.gt, JS.le. rewrite ltb_spec, leb_spec.
  unfold SFltb, SFleb.
  rewrite (SFcompare_antisym (Prim2SF x) (Prim2SF y)).
  apply not_NaN in Hx. apply not_NaN in Hy.
  destruct (Prim2SF x) as [sx | sx | | sx mx ex],
           (Prim2SF y) as [sy | sy | | sy my ey];
    try congruence;
    match goal with
    | |- context [SFcompare ?a ?b] => destruct (SFcompare a b) as [[] |] eqn:C
    end; cbn; try discriminate; try reflexivity;
    cbn in C; try destruct sx; try destruct sy; discriminate C.
Qed.

Lemma le_neg_infinity (x : number) :
  (x <= neg_infinity) = true -> x = neg_infinity.
Proof.
  unfold JS.le. rewrite leb_spec. intros H. apply Prim2SF_inj.
  replace (Prim2SF neg_infinity) with (S754_infinity true) in *
    by (vm_compute; reflexivity).
  destruct (Prim2SF x) as [s | [] | | s m e]; try reflexivity;
    try destruct s; discriminate H.
Qed.

(** ** Math.max *)

Lemma Math_max_from_spec values : forall highest,
  isNaN highest = false ->
  no_NaN values = true ->
  (Math_max_from highest values = highest \/
   In (Math_max_from highest values) values) /\
  isNaN (Math_max_from highest values) = false /\
  (highest <= Math_max_from highest values) = true /\
  (forall x, In x values -> (x <= Math_max_from highest values) = true).
Proof.
  induction values as [| x rest IH]; intros highest Hh Hv.
  - cbn. repeat split; auto using le_refl; intros x [].
  - cbn [no_NaN forallb] in Hv. apply andb_prop in Hv. destruct Hv as [Hx Hr].
    apply negb_true_iff in Hx. cbn [Math_max_from]. rewrite Hx.
    set (h1 := if (PrimFloat.Leibniz.eqb x zero &&
                   PrimFloat.Leibniz.eqb highest neg_zero)%bool
               then zero else highest).
    set (h2 := if x > h1 then x else h1).
    assert (A1 : (h1 = highest \/ h1 = x) /\ isNaN h1 = false /\
                 (highest <= h1) = true).
    { unfold h1.
      destruct (PrimFloat.Leibniz.eqb x zero) eqn:Z1;
        [destruct (PrimFloat.Leibniz.eqb highest neg_zero) eqn:Z2 |];
        cbn [andb];
        [split; [| split; [reflexivity |]]
        | repeat split; auto using le_refl
        | repeat split; auto using le_refl ].
      - right. symmetry.
        exact (proj1 (FloatAxioms.Leibniz.eqb_spec _ _) Z1).
      - rewrite (proj1 (FloatAxioms.Leibniz.eqb_spec _ _) Z2). reflexivity. }
    destruct A1 as [M1 [N1 L1]].
    assert (A2 : (h2 = h1 \/ h2 = x) /\ isNaN h2 = false /\
                 (h1 <= h2) = true /\ (x <= h2) = true).
    { unfold h2. destruct (x > h1) eqn:G.
      - repeat split; auto using le_refl, gt_le.
      - repeat split; auto using le_refl, not_gt_le. }
    destruct A2 as [M2 [N2 [L2 Lx]]].
    destruct (IH h2 N2 Hr) as [M [N [L B]]].
    split; [| split; [exact N | split]].
    + destruct M as [M | M]; [| right; right; exact M].
      rewrite M. destruct M2 as [-> | ->]; [| right; left; reflexivity].
      destruct M1 as [-> | ->]; [left | right; left]; reflexivity.
    + eapply le_trans; [exact L1 |]. eapply le_trans; [exact L2 | exact L].
    + intros y [<- | Y]; [| exact (B y Y)].
      eapply le_trans; [exact Lx | exact L].
Qed.

Lemma Math_max_NaN values : forall highest,
  no_NaN values = false -> Math_max_from highest values = nan.
Proof.
  induction values as [| x rest IH]; intros highest H; [discriminate H |].
  cbn [no_NaN forallb] in H. cbn [Math_max_from].
  destruct (isNaN x); [reflexivity |]. apply IH. exact H.
Qed.

(** X9. The maximum the chart scales by. When no monthly value is NaN and
    there is at least one, [Math.max(...monthlyData)] is one of the monthly
    values and no monthly value is above it; when a monthly value is NaN it
    is NaN; for no value at all it is -Infinity. *)
Theorem chart_maximum values :
  (no_NaN values = true -> values <> [] ->
   In (Math_max values) values /\
   forall x, In x values -> (x <= Math_max values) = true) /\
  (no_NaN values = false -> Math_max values = nan) /\
  (values = [] -> Math_max values = neg_infinity).
Proof.
  split; [| split].
  - intros H E. unfold Math_max.
    destruct (Math_max_from_spec values neg_infinity eq_refl H)
      as [M [_ [_ B]]].
    split; [| exact B].
    destruct M as [M | M]; [| exact M].
    destruct values as [| x rest]; [contradiction |].
    specialize (B x (or_introl eq_refl)). rewrite M in B |- *.
    left. now apply le_neg_infinity.
  - apply Math_max_NaN.
  - intros ->. reflexivity.
Qed.

Lemma chart_maximum_witness :
  In (Math_max (map E_m example_months)) (map E_m example_months) /\
  (forall x, In x (map E_m example_months) ->
             (x <= Math_max (map E_m example_months)) = true) /\
  Math_max (map E_m example_months) = 141.
Proof.
  destruct (chart_maximum (map E_m example_months)) as [K _].
  destruct K as [M B]; [reflexivity | discriminate |].
  split; [exact M |]. split; [exact B |]. reflexivity.
Defined.

(** ** Division of a number by itself *)

Lemma finite_nonzero_spec (x : number) :
  finite_nonzero x = true -> exists s m e, Prim2SF x = S754_finite s m e.
Proof.
  unfold finite_nonzero, is_finite, is_infinity, is_zero.
  fold (isNaN x). rewrite isNaN_spec, !eqb_spec, abs_spec.
  replace (Prim2SF infinity) with (S754_infinity false)
    by (vm_compute; reflexivity).
  replace (Prim2SF zero) with (S754_zero false) by (vm_compute; reflexivity).
  destruct (Prim2SF x) as [s | s | | s m e]; try destruct s;
    try discriminate; eauto.
Qed.

Lemma SFdiv_core_self m e :
  SFdiv_core_binary prec emax (Zpos m) e (Zpos m) e =
    (9007199254740992%Z, (-53)%Z, loc_Exact).
Proof.
  unfold SFdiv_core_binary. rewrite !Z.sub_diag.
  change (Z.min (fexp prec emax 0) 0) with (-53)%Z.
  change (0 - -53)%Z with 53%Z. cbv iota.
  destruct (Z.div_eucl (Z.shiftl (Z.pos m) 53) (Z.pos m)) as [q r] eqn:E.
  assert (Q : q = (Z.shiftl (Z.pos m) 53 / Z.pos m)%Z)
    by (unfold Z.div; now rewrite E).
  assert (R : r = (Z.shiftl (Z.pos m) 53 mod Z.pos m)%Z)
    by (unfold Z.modulo; now rewrite E).
  rewrite Z.shiftl_mul_pow2 in Q, R by lia.
  rewrite Z.mul_comm in Q, R.
  rewrite Z.div_mul in Q by discriminate.
  rewrite Z.mod_mul in R by discriminate.
  subst q r. unfold new_location, new_location_even, new_location_odd.
  destruct (Z.even (Z.pos m)); reflexivity.
Qed.

(** A finite number other than zero divided by itself is 1. *)
Lemma div_self (x : number) : finite_nonzero x = true -> (x / x)%float = 1.
Proof.
  intros H. destruct (finite_nonzero_spec x H) as [s [m [e E]]].
  apply Prim2SF_inj. rewrite div_spec, E. unfold SF64div, SFdiv.
  rewrite SFdiv_core_self.
  destruct s; vm_compute; reflexivity.
Qed.

(** X10. The highest month fills the chart. When the result has exactly
    twelve monthly values, none of them NaN, and their maximum is finite
    and not zero, the chart has a bar of height exactly "100%", at the
    month of the maximum. *)
Theorem tallest_bar_is_full d bars :
  chart d = Some bars ->
  List.length (monthlyData d) = 12%nat ->
  no_NaN (monthlyData d) = true ->
  finite_nonzero (Math_max (monthlyData d)) = true ->
  exists k b,
    nth_error (monthlyData d) k = Some (Math_max (monthlyData d)) /\
    nth_error bars k = Some b /\
    bar_height b = "100%".
Proof.
  intros C L N F.
  assert (E : monthlyData d <> []).
  { intros K. rewrite K in L. discriminate L. }
  destruct (Math_max_from_spec (monthlyData d) neg_infinity eq_refl N)
    as [M [_ [_ B]]].
  assert (I : In (Math_max (monthlyData d)) (monthlyData d)).
  { unfold Math_max. destruct M as [M | M]; [| exact M].
    destruct (monthlyData d) as [| x rest]; [contradiction |].
    specialize (B x (or_introl eq_refl)). rewrite M in B |- *.
    left. now apply le_neg_infinity. }
  destruct (In_nth_error _ _ I) as [k K].
  destruct (chart_bars_spec months 0 d bars C) as [Mo Bs].
  assert (Lb : List.length bars = 12%nat).
  { rewrite <- (List.length_map bar_month), Mo. reflexivity. }
  assert (Lk : (k < 12)%nat).
  { rewrite <- L. apply nth_error_Some. congruence. }
  destruct (nth_error bars k) as [b |] eqn:Nb.
  - exists k, b. split; [exact K |]. split; [exact Nb |].
    destruct (Bs k b Nb) as [v [V [Hh _]]]. cbn [Nat.add] in V.
    rewrite K in V. injection V as <-.
    rewrite Hh, (div_self _ F). vm_compute. reflexivity.
  - apply nth_error_None in Nb. lia.
Qed.

Lemma tallest_bar_is_full_witness :
  exists k b,
    nth_error (map E_m example_months) k = Some 141 /\
    option_map (fun bars => nth_error bars k)
      (chart (result_of (51.1657, 10.4515) clicked (example_data 1184)))
      = Some (Some b) /\
    bar_height b = "100%".
Proof.
  destruct (chart (result_of (51.1657, 10.4515) clicked (example_data 1184)))
    as [bars |] eqn:C; [| vm_compute in C; discriminate C].
  destruct (tallest_bar_is_full
              (result_of (51.1657, 10.4515) clicked (example_data 1184))
              bars C) as [k [b [K [Nb H]]]];
    try reflexivity.
  exists k, b. split; [exact K |]. split; [| exact H].
  cbn [option_map]. now rewrite Nb.
Defined.

(** ** Reading back what [toFixed] writes *)

Lemma append_assoc (a b c : string) : (a ++ b) ++ c = a ++ (b ++ c).
Proof.
  induction a as [| x a IH]; [reflexivity |]. cbn. now rewrite IH.
Qed.

Lemma append_empty (a : string) : a ++ "" = a.
Proof.
  induction a as [| x a IH]; [reflexivity |]. cbn. now rewrite IH.
Qed.

Lemma read_digits_uint u : forall rest acc cnt,
  read_digits (NilEmpty.string_of_uint u ++ rest) acc cnt =
  read_digits rest (uint_value u acc)
    (cnt + Z.of_nat (Decimal.nb_digits u))%Z.
Proof.
  induction u as [| u IH | u IH | u IH | u IH | u IH | u IH | u IH | u IH
                  | u IH | u IH]; intros rest acc cnt;
    cbn [NilEmpty.string_of_uint append uint_value Decimal.nb_digits];
    [ now rewrite Z.add_0_r | .. ];
    cbn [read_digits];
    match goal with
    | |- context [digit_value ?c] =>
        let v := eval vm_compute in (digit_value c) in
        change (digit_value c) with v
    end;
    cbv iota; rewrite IH; f_equal; lia.
Qed.

Lemma uint_value_pos u : forall p,
  uint_value u (Zpos p) = Zpos (Pos.of_uint_acc u p).
Proof.
  induction u as [| u IH | u IH | u IH | u IH | u IH | u IH | u IH | u IH
                  | u IH | u IH]; intros p;
    cbn [uint_value Pos.of_uint_acc]; [reflexivity | ..];
    rewrite <- IH; f_equal; lia.
Qed.

Lemma uint_value_0 u : uint_value u 0%Z = Z.of_N (Pos.of_uint u).
Proof.
  induction u as [| u IH | u IH | u IH | u IH | u IH | u IH | u IH | u IH
                  | u IH | u IH];
    cbn [uint_value Pos.of_uint]; [reflexivity | exact IH | ..];
    cbn [Z.mul Z.add Z.of_N]; apply uint_value_pos.
Qed.

Lemma uint_value_to_uint n : uint_value (N.to_uint n) 0%Z = Z.of_N n.
Proof.
  rewrite uint_value_0. change (Pos.of_uint (N.to_uint n)) with
    (N.of_uint (N.to_uint n)).
  now rewrite DecimalN.Unsigned.of_to.
Qed.

Lemma to_uint_not_nil n : N.to_uint n <> Decimal.Nil.
Proof.
  destruct n as [| p]; [discriminate |].
  apply DecimalPos.Unsigned.to_uint_nonnil.
Qed.

(** A numeral followed by anything is read as its number, and has at least
    one digit. *)
Lemma read_digits_nonneg n :
  (0 <= n)%Z ->
  exists k, (0 < k)%Z /\
    forall rest cnt,
      read_digits (string_of_nonneg n ++ rest) 0%Z cnt =
      read_digits rest n (cnt + k)%Z.
Proof.
  intros H. unfold string_of_nonneg.
  pose proof (uint_value_to_uint (Z.to_N n)) as V.
  pose proof (to_uint_not_nil (Z.to_N n)) as K.
  rewrite Z2N.id in V by exact H.
  destruct (N.to_uint (Z.to_N n)) as [| u | u | u | u | u | u | u | u | u | u]
    eqn:E; [contradiction | ..];
    match goal with
    | |- context [NilZero.string_of_uint ?d] =>
        change (NilZero.string_of_uint d) with (NilEmpty.string_of_uint d);
        exists (Z.of_nat (Decimal.nb_digits d));
        (split; [cbn [Decimal.nb_digits]; lia |]);
        intros rest cnt; rewrite read_digits_uint, V; reflexivity
    end.
Qed.

Lemma digit_value_digit_char d :
  (0 <= d < 10)%Z -> digit_value (digit_char d) = Some d.
Proof.
  intros H.
  assert (K : (d = 0 \/ d = 1 \/ d = 2 \/ d = 3 \/ d = 4 \/ d = 5 \/ d = 6 \/
               d = 7 \/ d = 8 \/ d = 9)%Z) by lia.
  repeat destruct K as [-> | K]; try subst d; reflexivity.
Qed.

Lemma read_digits_fixed k : forall n rest acc cnt,
  read_digits (digits_fixed k n ++ rest) acc cnt =
  read_digits rest (acc * 10 ^ Z.of_nat k + n mod 10 ^ Z.of_nat k)%Z
    (cnt + Z.of_nat k)%Z.
Proof.
  induction k as [| k IH]; intros n rest acc cnt.
  - cbn [digits_fixed append Z.of_nat]. rewrite Z.pow_0_r, Z.mod_1_r.
    f_equal; lia.
  - cbn [digits_fixed]. rewrite append_assoc, IH. cbn [append read_digits].
    rewrite digit_value_digit_char by (apply Z.mod_pos_bound; lia).
    rewrite Nat2Z.inj_succ, Z.pow_succ_r by lia.
    rewrite (Z.rem_mul_r n 10 (10 ^ Z.of_nat k)) by lia.
    f_equal; lia.
Qed.

Lemma is_digit_first c :
  is_digit c = true ->
  is_whitespace c = false /\
  (forall r, read_sign (String c r) = (false, String c r)) /\
  (forall r, prefix "Infinity" (String c r) = false).
Proof.
  destruct c as [[] [] [] [] [] [] [] []]; intros H;
    try discriminate H; repeat split.
Qed.

(** [parseFloat] reads the fixed notation back as the decimal it writes. *)
Lemma parseFloat_fixed s f n :
  (0 <= n)%Z ->
  parseFloat (sign_string s ++ fixed_digits (S f) n) =
  SF2Prim (SF_of_decimal s n (- Z.of_nat (S f))).
Proof.
  intros H. unfold fixed_digits.
  set (F := Z.of_nat (S f)).
  assert (HF : (0 < 10 ^ F)%Z) by (apply Z.pow_pos_nonneg; lia).
  assert (Ha : (0 <= n / 10 ^ F)%Z) by (apply Z.div_pos; lia).
  destruct (read_digits_nonneg _ Ha) as [k [Hk R]].
  destruct (string_of_nonneg_digits (n / 10 ^ F)) as [c [r [E [C _]]]].
  destruct (is_digit_first c C) as [W [Sg I]].
  assert (Q : forall neg,
             (let '(ip, ic, s2) :=
                read_digits (string_of_nonneg (n / 10 ^ F) ++ "." ++
                             digits_fixed (S f) (n mod 10 ^ F)) 0%Z 0%Z in
              let '(mant, fc, s3) :=
                match s2 with
                | String "." r => read_digits r ip 0%Z
                | _ => (ip, 0%Z, s2)
                end in
              if (ic =? 0)%Z && (fc =? 0)%Z then nan
              else SF2Prim (SF_of_decimal neg mant (read_exponent s3 - fc)%Z))
             = SF2Prim (SF_of_decimal neg n (- F))).
  { intros neg. rewrite R. cbn [append read_digits].
    change (digit_value ".") with (@None Z). cbv iota.
    rewrite <- (append_empty (digits_fixed (S f) (n mod 10 ^ F))).
    rewrite read_digits_fixed. cbn [read_digits]. fold F.
    replace (0 + k =? 0)%Z with false by (symmetry; apply Z.eqb_neq; lia).
    cbn [andb read_exponent].
    rewrite Z.mod_mod by lia.
    replace (n / 10 ^ F * 10 ^ F + n mod 10 ^ F)%Z with n
      by (rewrite (Z.div_mod n (10 ^ F)) at 1 by lia; lia).
    replace (0 - (0 + F))%Z with (- F)%Z by lia. reflexivity. }
  rewrite E in Q. rewrite E.
  unfold parseFloat. destruct s; cbn [sign_string append trim_start].
  - change (is_whitespace "-") with false. cbv iota. cbn [read_sign].
    rewrite (I _). exact (Q true).
  - rewrite W, (Sg _), (I _). exact (Q false).
Qed.

(** ** Conversions never give NaN *)

Lemma iter_pos_invariant {A} (P : A -> Prop) (f : A -> A) :
  (forall x, P x -> P (f x)) ->
  forall p x, P x -> P (iter_pos f p x).
Proof.
  intros H. induction p as [p IH | p IH |]; intros x Hx; cbn; auto.
Qed.

Lemma shr_1_nonneg mrs : (0 <= shr_m mrs)%Z -> (0 <= shr_m (shr_1 mrs))%Z.
Proof.
  destruct mrs as [[| [p | p |] | p] r s]; cbn; lia.
Qed.

Lemma shr_fexp_nonneg m e l :
  (0 <= m)%Z -> (0 <= shr_m (fst (shr_fexp prec emax m e l)))%Z.
Proof.
  intros H. unfold shr_fexp, shr.
  assert (K : (0 <= shr_m (shr_record_of_loc m l))%Z)
    by (destruct l as [| []]; exact H).
  destruct (fexp prec emax (Zdigits2 m + e) - e)%Z; cbn [fst]; try exact K.
  apply (iter_pos_invariant (fun r => (0 <= shr_m r)%Z)); [| exact K].
  apply shr_1_nonneg.
Qed.

Lemma binary_round_aux_not_nan s m e l :
  (0 <= m)%Z -> binary_round_aux prec emax s m e l <> S754_nan.
Proof.
  intros H. unfold binary_round_aux.
  pose proof (shr_fexp_nonneg m e l H) as K1.
  destruct (shr_fexp prec emax m e l) as [mrs1 e1]. cbn [fst] in K1.
  assert (K2 : (0 <= round_nearest_even (shr_m mrs1)
                       (loc_of_shr_record mrs1))%Z).
  { unfold round_nearest_even.
    destruct (loc_of_shr_record mrs1) as [| []];
      try destruct (Z.even (shr_m mrs1)); lia. }
  pose proof (shr_fexp_nonneg _ e1 loc_Exact K2) as K3.
  destruct (shr_fexp prec emax _ e1 loc_Exact) as [mrs2 e2]. cbn [fst] in K3.
  destruct (shr_m mrs2); [discriminate | | lia].
  destruct (e2 <=? emax - prec)%Z; discriminate.
Qed.

Lemma binary_round_not_nan s m e : binary_round prec emax s m e <> S754_nan.
Proof.
  unfold binary_round. destruct (shl_align m e _) as [mz ez].
  apply binary_round_aux_not_nan. lia.
Qed.

Lemma binary_normalize_not_nan m e sz :
  (0 <= m)%Z -> binary_normalize prec emax m e sz <> S754_nan.
Proof.
  intros H. unfold binary_normalize.
  destruct m as [| p | p]; [discriminate | | lia].
  apply binary_round_not_nan.
Qed.

Lemma SF_of_decimal_not_nan s m e : SF_of_decimal s m e <> S754_nan.
Proof.
  assert (R : forall p d, SF_of_ratio s p d <> S754_nan).
  { intros p d. unfold SF_of_ratio, SFdiv_core_binary.
    set (m' := match _ with Z0 => Zpos p | Zpos _ => _ | Zneg _ => 0%Z end).
    assert (M : (0 <= m')%Z).
    { unfold m'. destruct (_ - _ - _)%Z; try lia.
      apply Z.shiftl_nonneg. lia. }
    pose proof (Z.div_pos m' (Zpos d) M ltac:(lia)) as Q.
    unfold Z.div in Q. destruct (Z.div_eucl m' (Zpos d)) as [q r].
    cbn [fst] in Q. apply binary_round_aux_not_nan. exact Q. }
  unfold SF_of_decimal. destruct m as [| p | p]; try discriminate.
  destruct (0 <=? e)%Z; apply R.
Qed.

Lemma SF2Prim_not_NaN sf : sf <> S754_nan -> isNaN (SF2Prim sf) = false.
Proof.
  intros H. destruct sf as [[] | [] | | s m e]; try reflexivity;
    [contradiction |].
  rewrite isNaN_spec. cbv beta delta [SF2Prim] iota zeta.
  set (pm := of_uint63 _).
  assert (K : Prim2SF (Z.ldexp pm e) <> S754_nan).
  { unfold Z.ldexp. rewrite ldshiftexp_spec. unfold SFldexp.
    destruct (Prim2SF pm) as [s' | s' | | s' m' e'] eqn:E;
      try discriminate; [| apply binary_round_not_nan].
    unfold pm in E. rewrite of_uint63_spec in E.
    exfalso.
    exact (binary_normalize_not_nan _ _ _
             (proj1 (Uint63.to_Z_bounded _)) E). }
  destruct s.
  - rewrite opp_spec. destruct (Prim2SF (Z.ldexp pm e)); try reflexivity.
    contradiction.
  - destruct (Prim2SF (Z.ldexp pm e)); try reflexivity. contradiction.
Qed.

Lemma toFixed_fixed_decimal x f :
  fixed_notation x = true ->
  exists s n,
    fixed_decimal x f = Some (s, n) /\ (0 <= n)%Z /\
    toFixed x f = sign_string s ++ fixed_digits f n.
Proof.
  unfold fixed_notation, fixed_decimal, toFixed. intros H.
  pose proof (Prim2SF_valid x) as V.
  destruct (Prim2SF x) as [s | s | | s m e]; try discriminate H.
  - exists false, 0%Z. repeat split. lia.
  - unfold exact_ratio in *.
    destruct (0 <=? e)%Z eqn:E.
    + apply negb_true_iff in H. rewrite H.
      eexists; eexists. split; [reflexivity |]. split; [| reflexivity].
      unfold scaled_round. apply Z.div_pos; [| lia].
      assert (0 < 2 ^ e)%Z by (apply Z.pow_pos_nonneg; lia).
      assert (0 < 10 ^ Z.of_nat f)%Z by (apply Z.pow_pos_nonneg; lia).
      nia.
    + apply negb_true_iff in H. rewrite H.
      eexists; eexists. split; [reflexivity |]. split; [| reflexivity].
      unfold scaled_round.
      assert (0 < 2 ^ (- e))%Z by (apply Z.pow_pos_nonneg; lia).
      assert (0 < 10 ^ Z.of_nat f)%Z by (apply Z.pow_pos_nonneg; lia).
      apply Z.div_pos; nia.
Qed.

Lemma clicked_field_reads_back x :
  (Math_abs x < 1e21) = true ->
  exists v,
    rounded_decimal x 5 = Some v /\
    parseFloat (toFixed x 5) = v /\
    isNaN v = false.
Proof.
  intros H. apply fixed_notation_below_1e21 in H.
  destruct (toFixed_fixed_decimal x 5 H) as [s [n [D [N T]]]].
  exists (SF2Prim (SF_of_decimal s n (- Z.of_nat 5))).
  unfold rounded_decimal. rewrite D, T, parseFloat_fixed by exact N.
  repeat split. apply SF2Prim_not_NaN, SF_of_decimal_not_nan.
Qed.

(** X11. A map click followed by a blur. For a clicked coordinate of
    magnitude below 10^21, the text that the click writes into the field is
    read back by [parseFloat] as the coordinate rounded to five decimals,
    never as NaN. So the blur of a text field right after a click replaces
    the clicked position by the rounded one when that lies within -90..90
    and -180..180, and otherwise leaves the clicked position selected (a
    longitude beyond 180 stays as clicked). *)
Theorem click_then_blur st pos :
  (Math_abs (fst pos) < 1e21) = true ->
  (Math_abs (snd pos) < 1e21) = true ->
  exists la lo,
    rounded_decimal (fst pos) 5 = Some la /\
    rounded_decimal (snd pos) 5 = Some lo /\
    parseFloat (lat (step st (map_click pos))) = la /\
    parseFloat (lng (step st (map_click pos))) = lo /\
    parses (lat (step st (map_click pos))) = true /\
    parses (lng (step st (map_click pos))) = true /\
    position (steps st [ map_click pos; input_blur ]) =
      Some (if within (-90) la 90 && within (-180) lo 180
            then (la, lo) else pos).
Proof.
  intros H1 H2.
  destruct (clicked_field_reads_back _ H1) as [la [A1 [P1 N1]]].
  destruct (clicked_field_reads_back _ H2) as [lo [A2 [P2 N2]]].
  exists la, lo.
  change (lat (step st (map_click pos))) with (toFixed (fst pos) 5).
  change (lng (step st (map_click pos))) with (toFixed (snd pos) 5).
  unfold parses. rewrite P1, P2, N1, N2.
  repeat (split; [assumption || reflexivity |]).
  cbn [steps fold_left]. unfold step at 1. cbn [handle].
  rewrite handleLatLngInput_valid. unfold valid_entry, parses.
  change (lat (step st (map_click pos))) with (toFixed (fst pos) 5).
  change (lng (step st (map_click pos))) with (toFixed (snd pos) 5).
  rewrite P1, P2, N1, N2. cbn [negb andb].
  destruct (within (-90) la 90 && within (-180) lo 180); reflexivity.
Qed.

Lemma click_then_blur_witness :
  exists la lo,
    rounded_decimal 48.1234567 5 = Some la /\
    rounded_decimal 190.5 5 = Some lo /\
    parseFloat (lat (step initial (map_click (48.1234567, 190.5)))) = la /\
    parseFloat (lng (step initial (map_click (48.1234567, 190.5)))) = lo /\
    parses (lat (step initial (map_click (48.1234567, 190.5)))) = true /\
    parses (lng (step initial (map_click (48.1234567, 190.5)))) = true /\
    position (steps initial [ map_click (48.1234567, 190.5); input_blur ]) =
      Some (if within (-90) la 90 && within (-180) lo 180
            then (la, lo) else (48.1234567, 190.5)).
Proof.
  apply (click_then_blur initial (48.1234567, 190.5));
    vm_compute; reflexivity.
Defined.

(** A click inside the ranges is replaced by its rounding; one outside
    stays. *)
Example click_then_blur_examples :
  position (steps initial [ map_click (48.1234567, 11.5); input_blur ]) =
    Some (48.12346, 11.5) /\
  position (steps initial [ map_click (48.1234567, 190.5); input_blur ]) =
    Some (48.1234567, 190.5) /\
  lng (steps initial [ map_click (48.1234567, 190.5); input_blur ]) =
    "190.50000" /\
  parseFloat (toFixed (-0.000001) 5) = neg_zero.
Proof. repeat split; vm_compute; reflexivity. Qed.

(** ** While a request is in flight *)

(** X12. A calculation with a selected position first sets the loading
    flag and clears the message, and only then issues its request: while
    the request is in flight the button is disabled and reads
    "Berechne...", and no message is shown. Whatever the outcome, when the
    calculation has ended the button is enabled again and reads
    "Berechnen". *)
Theorem button_disabled_while_loading st pos o :
  position st = Some pos ->
  exists after,
    calculateSolar st o =
      ([ setLoading true; setError "" ] ++
       fetch_call (request_url pos st) :: after)%list /\
    button_disabled (run st [ setLoading true; setError "" ]) = true /\
    button_label (run st [ setLoading true; setError "" ]) = "Berechne..." /\
    error_box (run st [ setLoading true; setError "" ]) = None /\
    button_disabled (step st (calculate_click o)) = false /\
    button_label (step st (calculate_click o)) = "Berechnen".
Proof.
  intros H.
  assert (E : button_disabled (step st (calculate_click o)) = false /\
              button_label (step st (calculate_click o)) = "Berechnen").
  { unfold button_disabled, button_label, step, handle.
    rewrite (proj2 (calculation_end st pos o H st)).
    rewrite (proj1 (calculateSolar_frame st st o)), H. split; reflexivity. }
  destruct (outcome_cases o) as [[data ->] | [e F]].
  - rewrite (calculateSolar_success st pos H). eexists.
    split; [reflexivity |]. repeat split; apply E.
  - rewrite (calculateSolar_failure st pos H o e F). eexists.
    split; [reflexivity |]. repeat split; apply E.
Qed.

Lemma button_disabled_while_loading_witness :
  exists after,
    calculateSolar clicked offline =
      ([ setLoading true; setError "" ] ++
       fetch_call (request_url (51.1657, 10.4515) clicked) :: after)%list /\
    button_disabled (run clicked [ setLoading true; setError "" ]) = true /\
    button_label (run clicked [ setLoading true; setError "" ])
      = "Berechne..." /\
    error_box (run clicked [ setLoading true; setError "" ]) = None /\
    button_disabled (step clicked (calculate_click offline)) = false /\
    button_label (step clicked (calculate_click offline)) = "Berechnen".
Proof.
  apply (button_disabled_while_loading clicked (51.1657, 10.4515) offline).
  reflexivity.
Defined.

(** ** The texts of the result panel *)

Lemma unsigned_whole_text x :
  (Math_abs x < 1e21) = true ->
  all_digits (toFixed (Math_abs x) 0) = true /\ toFixed (Math_abs x) 0 <> "".
Proof.
  intros H. apply fixed_notation_below_1e21 in H.
  unfold fixed_notation in H. unfold toFixed, Math_abs. rewrite abs_spec.
  assert (K : forall n, all_digits (fixed_digits 0 n) = true /\
                        fixed_digits 0 n <> "").
  { intros n. unfold fixed_digits.
    destruct (string_of_nonneg_digits n) as [c [r [E [C R]]]].
    rewrite E. cbn [all_digits]. rewrite C, R. split; [reflexivity |].
    discriminate. }
  destruct (Prim2SF x) as [s | s | | s m e]; try discriminate H.
  - apply K.
  - cbn [SFabs]. destruct (exact_ratio m e) as [P D].
    destruct (10 ^ 21 * D <=? P)%Z; [discriminate H |].
    cbn [sign_string append]. apply K.
Qed.

(** X13. The recommended tilt is shown as an unsigned whole number. After
    a successful calculation for a position whose latitude is of magnitude
    below 10^21, the tilt text of the panel consists of decimal digits
    only, at least one: no sign for a southern latitude, no decimal point
    and no exponent. *)
Theorem recommended_tilt_text st pos data :
  position st = Some pos ->
  (Math_abs (fst pos) < 1e21) = true ->
  exists d,
    solarData (step st (calculate_click (success data))) = Some d /\
    all_digits (tilt_text d) = true /\
    tilt_text d <> "".
Proof.
  intros H B. exists (result_of pos st data). split.
  - unfold step, handle. now rewrite (run_success st pos H).
  - unfold tilt_text, result_of. cbn [optimalTilt].
    apply unsigned_whole_text. exact B.
Qed.

Lemma recommended_tilt_text_witness :
  exists d,
    solarData (step (step initial (map_click (-33.5, 151.25)))
                 (calculate_click (success southern_profile))) = Some d /\
    all_digits (tilt_text d) = true /\
    tilt_text d <> "".
Proof.
  apply (recommended_tilt_text
           (step initial (map_click (-33.5, 151.25))) (-33.5, 151.25));
    vm_compute; reflexivity.
Defined.

(** Half a degree is rounded up, away from the equator on both sides. *)
Example recommended_tilt_text_examples :
  tilt_text (result_of (-33.5, 151.25) initial southern_profile) = "34" /\
  tilt_text (result_of (48.25, 11.5) initial (example_data 1184)) = "48" /\
  tilt_text (result_of (-0.2, 11.5) initial (example_data 1184)) = "0".
Proof. repeat split; vm_compute; reflexivity. Qed.

(** X14. The panel mixes the current position with the stored result.
    After a successful calculation for one position and a click on another,
    the panel is still shown with the result computed for the first
    position (its tilt and orientation follow the first latitude), while
    its location line shows the latitude of the second. *)
Theorem panel_location_follows_clicks st pos1 data pos2 :
  position st = Some pos1 ->
  panel_shown
    (steps st [ calculate_click (success data); map_click pos2 ]) = true /\
  solarData
    (steps st [ calculate_click (success data); map_click pos2 ]) =
    Some (result_of pos1 st data) /\
  location_text
    (steps st [ calculate_click (success data); map_click pos2 ]) =
    Some (toFixed (fst pos2) 2) /\
  tilt_text (result_of pos1 st data) = toFixed (Math_abs (fst pos1)) 0.
Proof.
  intros H. cbn [steps fold_left]. unfold step. cbn [handle].
  rewrite (run_success st pos1 H).
  split; [reflexivity |]. split; [reflexivity |]. split; reflexivity.
Qed.

Lemma panel_location_follows_clicks_witness :
  panel_shown
    (steps clicked [ calculate_click (success (example_data 1184));
                     map_click (-33.5, 151.25) ]) = true /\
  solarData
    (steps clicked [ calculate_click (success (example_data 1184));
                     map_click (-33.5, 151.25) ]) =
    Some (result_of (51.1657, 10.4515) clicked (example_data 1184)) /\
  location_text
    (steps clicked [ calculate_click (success (example_data 1184));
                     map_click (-33.5, 151.25) ]) =
    Some (toFixed (fst (-33.5, 151.25)) 2) /\
  tilt_text (result_of (51.1657, 10.4515) clicked (example_data 1184)) =
    toFixed (Math_abs (fst (51.1657, 10.4515))) 0.
Proof.
  apply (panel_location_follows_clicks clicked (51.1657, 10.4515)
           (example_data 1184) (-33.5, 151.25)).
  reflexivity.
Defined.

Example panel_location_example :
  location_text
    (steps clicked [ calculate_click (success (example_data 1184));
                     map_click (-33.5, 151.25) ]) = Some "-33.50" /\
  option_map tilt_text
    (solarData
       (steps clicked [ calculate_click (success (example_data 1184));
                        map_click (-33.5, 151.25) ])) = Some "51" /\
  option_map orientation_label
    (solarData
       (steps clicked [ calculate_click (success (example_data 1184));
                        map_click (-33.5, 151.25) ])) = Some "Sued (180 Grad)".
Proof. repeat split; vm_compute; reflexivity. Qed.
